(** * The churn predictor of src/lib/ml/churn-predictor.ts

    A shallow embedding of the [ChurnPredictor] class and the properties its
    specification states about it.

    Numbers.  A JavaScript [number] is modelled as a real number of the
    Standard Library: [Math.exp] is [exp], [Math.tanh] is [tanh],
    [Math.min]/[Math.max]/[Math.abs] are [Rmin]/[Rmax]/[Rabs].  The
    rounding error of binary64 arithmetic is outside the model: the
    statements about scores, trends and confidences are about the exact
    arithmetic the code describes, on finite numbers.  Where the code only
    compares and stores a number, in [setRiskThreshold], the number ranges
    over the reals, the two infinities and NaN.

    Dates.  A date string is modelled by the instant it denotes, an integer
    number of milliseconds since the epoch (what [new Date(s).getTime()]
    returns); the instant read from the clock is an explicit argument. *)

From Stdlib Require Import Reals Lra Lia ZArith String List Permutation Sorted.
Import ListNotations.
Open Scope R_scope.

(** ** The pieces of the JavaScript runtime the class uses *)

Module JS.

(** [Math.round]: the nearest integer, halves going up. *)
Definition Math_round (x : R) : R := IZR (Int_part (x + 1 / 2)).

(** [a || d] on an optional number: [undefined] and [0] are falsy. *)
Definition or_default (a : option R) (d : R) : R :=
  match a with
  | Some v => if Req_dec_T v 0 then d else v
  | None => d
  end.

(** [Array.prototype.reduce], whose callback receives the accumulator, the
    element and the element's index. *)
Fixpoint reduce_from {A B : Type} (f : B -> A -> nat -> B) (i : nat)
    (l : list A) (acc : B) : B :=
  match l with
  | [] => acc
  | x :: l' => reduce_from f (S i) l' (f acc x i)
  end.

Definition reduce {A B : Type} (f : B -> A -> nat -> B) (l : list A)
    (init : B) : B :=
  reduce_from f 0 l init.

(** [Array.prototype.sort] with a comparator.  The language standard makes
    the sort stable, so for a comparator that orders its arguments
    consistently the result is the one computed by a stable insertion:
    [x] goes before the first [y] with [cmp x y <= 0]. *)
Fixpoint insert {A : Type} (cmp : A -> A -> R) (x : A) (l : list A)
    : list A :=
  match l with
  | [] => [x]
  | y :: l' =>
      if Rle_dec (cmp x y) 0 then x :: y :: l' else y :: insert cmp x l'
  end.

Definition sort {A : Type} (cmp : A -> A -> R) (l : list A) : list A :=
  fold_right (insert cmp) [] l.

End JS.

(** ** Data model (the types imported from [@/types]) *)

Record Employee := {
  id : string;
  hire_date : Z;
  salary : option R;
  department : string
}.

Record PerformanceRecord := {
  perf_employee_id : string;
  review_date : Z;
  rating : R
}.

Record EngagementRecord := {
  eng_employee_id : string;
  survey_date : Z;
  overall_score : R;
  work_life_balance : option R
}.

(** The optional [departmentData] argument, an object with a
    [turnover_rate] field. *)
Record DepartmentData := {
  turnover_rate : R
}.

Inductive RiskLevel := LOW | MEDIUM | HIGH | CRITICAL.

Record ChurnPrediction := {
  prediction_id : string;
  employee_id : string;
  prediction_date : Z;
  risk_score : R;
  risk_level : RiskLevel;
  risk_factors : list string;
  confidence : R;
  model_version : string
}.

Record FeatureVector := {
  tenure_months : R;
  avg_performance_rating : R;
  performance_trend : R;
  avg_engagement_score : R;
  engagement_trend : R;
  salary_percentile : R;
  manager_changes : R;
  department_turnover_rate : R;
  promotion_gap_months : R;
  work_life_balance_score : R
}.

(** An element of the array handed to [calculateTrend]. *)
Record TrendPoint := {
  date : Z;
  value : R
}.

(** ** The class *)

Module ChurnPredictor.

Open Scope string_scope.

Definition modelVersion : string := "v1.2".

(** [modelWeights], as the list [Object.entries] enumerates: own string
    keys in insertion order. *)
Definition modelWeights : list (string * R) :=
  [ ("tenure_months", -0.15);
    ("avg_performance_rating", -0.25);
    ("performance_trend", -0.20);
    ("avg_engagement_score", -0.30);
    ("engagement_trend", -0.18);
    ("salary_percentile", -0.12);
    ("manager_changes", 0.22);
    ("department_turnover_rate", 0.28);
    ("promotion_gap_months", 0.16);
    ("work_life_balance_score", -0.24) ].

(** [features[feature as keyof FeatureVector]].  The keys come from
    [modelWeights], whose type has exactly the ten keys of the vector; the
    last branch is never taken. *)
Definition feature (f : FeatureVector) (name : string) : R :=
  if name =? "tenure_months" then tenure_months f
  else if name =? "avg_performance_rating" then avg_performance_rating f
  else if name =? "performance_trend" then performance_trend f
  else if name =? "avg_engagement_score" then avg_engagement_score f
  else if name =? "engagement_trend" then engagement_trend f
  else if name =? "salary_percentile" then salary_percentile f
  else if name =? "manager_changes" then manager_changes f
  else if name =? "department_turnover_rate" then department_turnover_rate f
  else if name =? "promotion_gap_months" then promotion_gap_months f
  else if name =? "work_life_balance_score" then work_life_balance_score f
  else 0%R.

(** [Object.values(features)] and [Object.keys(features)], in the order of
    the object literal [extractFeatures] returns. *)
Definition values (f : FeatureVector) : list R :=
  [ tenure_months f; avg_performance_rating f; performance_trend f;
    avg_engagement_score f; engagement_trend f; salary_percentile f;
    manager_changes f; department_turnover_rate f; promotion_gap_months f;
    work_life_balance_score f ].

Definition keys (f : FeatureVector) : list string :=
  [ "tenure_months"; "avg_performance_rating"; "performance_trend";
    "avg_engagement_score"; "engagement_trend"; "salary_percentile";
    "manager_changes"; "department_turnover_rate"; "promotion_gap_months";
    "work_life_balance_score" ].

Open Scope R_scope.

Definition normalizeFeature (featureName : string) (value : R) : R :=
  if (featureName =? "tenure_months")%string then tanh (value / 60)
  else if (featureName =? "avg_performance_rating")%string then
    (value - 3) / 2
  else if (featureName =? "avg_engagement_score")%string then
    (value - 5.5) / 4.5
  else if (featureName =? "salary_percentile")%string then
    (value - 0.5) * 2
  else if (featureName =? "department_turnover_rate")%string then
    tanh (value * 10)
  else if (featureName =? "promotion_gap_months")%string then
    tanh (value / 36)
  else tanh value.

Definition calculateRiskScore (features : FeatureVector) : R :=
  let score :=
    JS.reduce
      (fun score (entry : string * R) (_ : nat) =>
         let '(feature_name, weight) := entry in
         let featureValue := feature features feature_name in
         let normalizedValue := normalizeFeature feature_name featureValue in
         score + weight * normalizedValue)
      modelWeights 0.5 in
  1 / (1 + exp (- score)).

Definition calculateTrend (data : list TrendPoint) : R :=
  if (length data <? 2)%nat then 0
  else
    let sorted :=
      JS.sort (fun a b => IZR (date a) - IZR (date b)) data in
    let n := INR (length sorted) in
    let sumX := JS.reduce (fun sum _ i => sum + INR i) sorted 0 in
    let sumY := JS.reduce (fun sum item _ => sum + value item) sorted 0 in
    let sumXY :=
      JS.reduce (fun sum item i => sum + INR i * value item) sorted 0 in
    let sumXX := JS.reduce (fun sum _ i => sum + INR i * INR i) sorted 0 in
    let slope := (n * sumXY - sumX * sumY) / (n * sumXX - sumX * sumX) in
    tanh slope.

(** One month is taken as thirty days of milliseconds; [Math.floor] of the
    quotient of two integers is the floored division of [Z]. *)
Definition ms_per_month : Z := 1000 * 60 * 60 * 24 * 30.

Definition extractFeatures (now : Z) (employee : Employee)
    (performanceHistory : list PerformanceRecord)
    (engagementHistory : list EngagementRecord)
    (departmentData : option DepartmentData) : FeatureVector :=
  let hireDate := hire_date employee in
  let tenureMonths := IZR ((now - hireDate) / ms_per_month) in
  let avgPerformance :=
    if (0 <? length performanceHistory)%nat then
      JS.reduce (fun sum p _ => sum + rating p) performanceHistory 0
      / INR (length performanceHistory)
    else 3.0 in
  let performanceTrend :=
    calculateTrend
      (map (fun p => {| date := review_date p; value := rating p |})
         performanceHistory) in
  let avgEngagement :=
    if (0 <? length engagementHistory)%nat then
      JS.reduce (fun sum e _ => sum + overall_score e) engagementHistory 0
      / INR (length engagementHistory)
    else 7.0 in
  let engagementTrend :=
    calculateTrend
      (map (fun e => {| date := survey_date e; value := overall_score e |})
         engagementHistory) in
  let workLifeBalance :=
    if (0 <? length engagementHistory)%nat then
      JS.reduce
        (fun sum e _ => sum + JS.or_default (work_life_balance e) 7)
        engagementHistory 0
      / INR (length engagementHistory)
    else 7.0 in
  let salaryPercentile :=
    match salary employee with
    | Some s => if Req_dec_T s 0 then 0.5 else Rmin (s / 120000) 1.0
    | None => 0.5
    end in
  let departmentTurnoverRate :=
    JS.or_default (option_map turnover_rate departmentData) 0.15 in
  {| tenure_months := tenureMonths;
     avg_performance_rating := avgPerformance;
     performance_trend := performanceTrend;
     avg_engagement_score := avgEngagement;
     engagement_trend := engagementTrend;
     salary_percentile := salaryPercentile;
     manager_changes := 0;
     department_turnover_rate := departmentTurnoverRate;
     promotion_gap_months := Rmax 0 (tenureMonths - 24);
     work_life_balance_score := workLifeBalance |}.

Definition categorizeRisk (riskScore : R) : RiskLevel :=
  if Rle_dec 0.8 riskScore then CRITICAL
  else if Rle_dec 0.6 riskScore then HIGH
  else if Rle_dec 0.3 riskScore then MEDIUM
  else LOW.

(** [if (c) factors.push(s)]. *)
Definition push_if {P Q : Prop} (c : {P} + {Q}) (s : string)
    (factors : list string) : list string :=
  if c then (factors ++ [s])%list else factors.

Definition identifyRiskFactors (features : FeatureVector)
    (employee : Employee) : list string :=
  let factors := [] in
  let factors :=
    push_if (Rlt_dec (avg_performance_rating features) 3.0)
      "Below average performance rating" factors in
  let factors :=
    push_if (Rlt_dec (performance_trend features) (-0.3))
      "Declining performance trend" factors in
  let factors :=
    push_if (Rlt_dec (avg_engagement_score features) 6.0)
      "Low engagement score" factors in
  let factors :=
    push_if (Rlt_dec (engagement_trend features) (-0.3))
      "Declining engagement trend" factors in
  let factors :=
    push_if (Rlt_dec (work_life_balance_score features) 6.0)
      "Poor work-life balance" factors in
  let factors :=
    push_if (Rlt_dec (salary_percentile features) 0.3)
      "Below market salary" factors in
  let factors :=
    push_if (Rgt_dec (manager_changes features) 2)
      "Frequent manager changes" factors in
  let factors :=
    push_if (Rgt_dec (department_turnover_rate features) 0.25)
      "High department turnover" factors in
  let factors :=
    push_if (Rgt_dec (promotion_gap_months features) 36)
      "Long time since last promotion" factors in
  let factors :=
    push_if (Rlt_dec (tenure_months features) 6)
      "Recent hire adjustment period" factors in
  if (length factors =? 0)%nat then
    (factors ++ ["Multiple minor risk indicators"%string])%list
  else factors.

Definition calculateConfidence (features : FeatureVector) (riskScore : R)
    : R :=
  let confidence := 0.7 in
  let dataCompleteness :=
    INR (length
           (filter (fun v => if Req_dec_T v 0 then false else true)
              (values features)))
    / INR (length (keys features)) in
  let confidence := confidence + dataCompleteness * 0.2 in
  let extremeness := Rabs (riskScore - 0.5) * 2 in
  let confidence := confidence + extremeness * 0.1 in
  Rmin confidence 0.95.

(** [predictChurn].  [now] is the instant read from the clock and [rid] the
    token [generateId] draws; [prediction_date] is the day number of [now].
    Nothing in the body can throw on values of these types, so the
    [try]/[catch] wrapper never rethrows and the function is total. *)
Definition predictChurn (now : Z) (rid : string) (employee : Employee)
    (performanceHistory : list PerformanceRecord)
    (engagementHistory : list EngagementRecord)
    (departmentData : option DepartmentData) : ChurnPrediction :=
  let features :=
    extractFeatures now employee performanceHistory engagementHistory
      departmentData in
  let riskScore := calculateRiskScore features in
  let riskLevel := categorizeRisk riskScore in
  let riskFactors := identifyRiskFactors features employee in
  let confidence := calculateConfidence features riskScore in
  {| prediction_id := rid;
     employee_id := id employee;
     prediction_date := (now / (1000 * 60 * 60 * 24))%Z;
     risk_score := JS.Math_round (riskScore * 1000) / 1000;
     risk_level := riskLevel;
     risk_factors := riskFactors;
     confidence := JS.Math_round (confidence * 1000) / 1000;
     model_version := modelVersion |}.

(** [batchPredict].  The [k]-th iteration of the loop reads the clock at
    [clock k] and draws the identifier [ids k]. *)
Definition batchPredict (clock : nat -> Z) (ids : nat -> string)
    (employees : list Employee) (performanceData : list PerformanceRecord)
    (engagementData : list EngagementRecord) : list ChurnPrediction :=
  let predictions :=
    JS.reduce
      (fun predictions employee k =>
         let empPerformance :=
           filter (fun p => (perf_employee_id p =? id employee)%string)
             performanceData in
         let empEngagement :=
           filter (fun e => (eng_employee_id e =? id employee)%string)
             engagementData in
         let prediction :=
           predictChurn (clock k) (ids k) employee empPerformance
             empEngagement None in
         (predictions ++ [prediction])%list)
      employees [] in
  JS.sort (fun a b => risk_score b - risk_score a) predictions.

(** The argument of [setRiskThreshold] is any JavaScript number: a real,
    one of the two infinities, or NaN.  [<] and [>] are the comparisons of
    the language, false whenever an operand is NaN. *)
Inductive number := Num (x : R) | Infinity | NegInfinity | NaN.

Definition num_lt (a b : number) : bool :=
  match a, b with
  | NaN, _ | _, NaN => false
  | Num x, Num y => if Rlt_dec x y then true else false
  | NegInfinity, NegInfinity => false
  | NegInfinity, _ => true
  | _, NegInfinity => false
  | Infinity, _ => false
  | Num _, Infinity => true
  end.

Definition num_gt (a b : number) : bool := num_lt b a.

(** The mutable part of an instance: the [threshold] field. *)
Record State := {
  threshold : number
}.

Definition initial : State := {| threshold := Num 0.5 |}.

Inductive Error := Err (message : string).

(** [setRiskThreshold]: the outcome (an exception or a normal return) and
    the instance after the call. *)
Definition setRiskThreshold (t : number) (this : State)
    : (Error + unit) * State :=
  if (num_lt t (Num 0) || num_gt t (Num 1))%bool then
    (inl (Err "Threshold must be between 0 and 1"), this)
  else (inr tt, {| threshold := t |}).

Definition getRiskThreshold (this : State) : number := threshold this.

End ChurnPredictor.

Import ChurnPredictor.

(** ** The specification's own formulas *)

(** The standard logistic function. *)
Definition logistic (x : R) : R := 1 / (1 + exp (- x)).

(** The log-odds of the specification: base 0.5 plus, for each of the ten
    features, its weight times its normalized value. *)
Definition spec_log_odds (f : FeatureVector) : R :=
  0.5
  + (-0.15) * tanh (tenure_months f / 60)
  + (-0.25) * ((avg_performance_rating f - 3) / 2)
  + (-0.20) * tanh (performance_trend f)
  + (-0.30) * ((avg_engagement_score f - 5.5) / 4.5)
  + (-0.18) * tanh (engagement_trend f)
  + (-0.12) * ((salary_percentile f - 0.5) * 2)
  + 0.22 * tanh (manager_changes f)
  + 0.28 * tanh (department_turnover_rate f * 10)
  + 0.16 * tanh (promotion_gap_months f / 36)
  + (-0.24) * tanh (work_life_balance_score f).

(** [r] is [x] rounded to three decimal places: a whole number of
    thousandths, nearest to [x], a tie going up. *)
Definition rounded3 (x r : R) : Prop :=
  (exists k : Z, r = IZR k / 1000) /\ - (1 / 2000) < r - x <= 1 / 2000.

(** No threshold rule of the risk-factor derivation fires on the raw
    feature values: none of rating < 3.0, performance trend < -0.3,
    engagement < 6.0, engagement trend < -0.3, work-life balance < 6.0,
    salary percentile < 0.3, manager changes > 2, department turnover
    > 0.25, promotion gap > 36, tenure < 6. *)
Definition no_rule_fires (f : FeatureVector) : Prop :=
  3.0 <= avg_performance_rating f
  /\ -0.3 <= performance_trend f
  /\ 6.0 <= avg_engagement_score f
  /\ -0.3 <= engagement_trend f
  /\ 6.0 <= work_life_balance_score f
  /\ 0.3 <= salary_percentile f
  /\ manager_changes f <= 2
  /\ department_turnover_rate f <= 0.25
  /\ promotion_gap_months f <= 36
  /\ 6 <= tenure_months f.

(** Least squares.  [sse pts a b] is the sum of the squared residuals of the
    line [y = a + b x] on the points [pts]; [b] is a least-squares slope when,
    with some intercept, no line has a smaller sum.  [ranked vs] pairs each
    value with its rank 0, 1, 2, ... in the sequence. *)
Definition Rsum (l : list R) : R := fold_right Rplus 0 l.

Definition sse (pts : list (R * R)) (a b : R) : R :=
  Rsum (map (fun p => (snd p - (a + b * fst p)) ^ 2) pts).

Definition least_squares_slope (pts : list (R * R)) (b : R) : Prop :=
  exists a, forall a' b', sse pts a b <= sse pts a' b'.

Definition ranked (vs : list R) : list (R * R) :=
  combine (map INR (seq 0 (length vs))) vs.

(** The sum of [g x i] over the elements [x] of [l], numbered from [i] on:
    what a [reduce] that adds [g x i] to its accumulator computes. *)
Fixpoint isum {A : Type} (g : A -> nat -> R) (i : nat) (l : list A) : R :=
  match l with
  | [] => 0
  | x :: l' => g x i + isum g (S i) l'
  end.

(** The numerator of the slope in [calculateTrend], for values [h x i] and
    ranks counted from [k]. *)
Definition slope_num {A : Type} (h : A -> nat -> R) (k : nat) (l : list A)
    : R :=
  INR (length l) * isum (fun x i => INR i * h x i) k l
  - isum (fun _ i => INR i) k l * isum h k l.

(** Order and selection by a numeric key. *)
Definition key_le {A : Type} (key : A -> R) (a b : A) : Prop :=
  key a <= key b.

Definition has_key {A : Type} (key : A -> R) (v : R) (x : A) : bool :=
  if Req_dec_T (key x) v then true else false.

(** One prediction per employee, in the order of the employees: the [k]-th
    employee's own records are selected from the shared collections and
    [predict] is applied to them, without a department context. *)
Fixpoint mapi_from {A B : Type} (g : A -> nat -> B) (i : nat) (l : list A)
    : list B :=
  match l with
  | [] => []
  | x :: l' => g x i :: mapi_from g (S i) l'
  end.

Definition predict_each (clock : nat -> Z) (ids : nat -> string)
    (performanceData : list PerformanceRecord)
    (engagementData : list EngagementRecord) (employees : list Employee)
    : list ChurnPrediction :=
  mapi_from
    (fun employee k =>
       predictChurn (clock k) (ids k) employee
         (filter (fun p => (perf_employee_id p =? id employee)%string)
            performanceData)
         (filter (fun e => (eng_employee_id e =? id employee)%string)
            engagementData)
         None)
    0 employees.

(** The predictions of a list whose score is [v], in the order of the
    list. *)
Definition with_score (v : R) (l : list ChurnPrediction)
    : list ChurnPrediction :=
  filter (has_key risk_score v) l.

(** The tiers in their order. *)
Definition level_rank (l : RiskLevel) : nat :=
  match l with
  | LOW => 0
  | MEDIUM => 1
  | HIGH => 2
  | CRITICAL => 3
  end.

(** ** Sample inputs *)

(** An employee hired twelve months before the prediction, paid 60000, with
    no review and no survey on record. *)
Definition steady_employee : Employee :=
  {| id := "E-100"; hire_date := 0; salary := Some 60000;
     department := "Engineering" |}.

Definition steady_now : Z := 12 * ms_per_month.

(** Three reviews half a year apart (dates in milliseconds), with ratings
    going down, and the same dates with ratings going up. *)
Definition declining_reviews : list TrendPoint :=
  [ {| date := 0; value := 4.5 |};
    {| date := 15552000000; value := 4.0 |};
    {| date := 31104000000; value := 3.5 |} ].

Definition rising_reviews : list TrendPoint :=
  [ {| date := 0; value := 3.5 |};
    {| date := 15552000000; value := 4.0 |};
    {| date := 31104000000; value := 4.5 |} ].

(** An employee hired ten days before the prediction, paid 64500, with no
    review and no survey on record. *)
Definition borderline_employee : Employee :=
  {| id := "E-200"; hire_date := 0; salary := Some 64500;
     department := "Sales" |}.

Definition borderline_now : Z := 10 * (1000 * 60 * 60 * 24).

(** The declining reviews on other dates: four weeks apart, not half a
    year. *)
Definition declining_reviews_close : list TrendPoint :=
  [ {| date := 0; value := 4.5 |};
    {| date := 2419200000; value := 4.0 |};
    {| date := 4838400000; value := 3.5 |} ].

(** An employee hired ten days before the prediction whose only review
    carries the lowest rating. *)
Definition struggling_employee : Employee :=
  {| id := "E-300"; hire_date := 0; salary := None;
     department := "Support" |}.

Definition poor_review : PerformanceRecord :=
  {| perf_employee_id := "E-300"; review_date := 432000000; rating := 1 |}.

(** A department context that reports no turnover at all. *)
Definition no_turnover : DepartmentData := {| turnover_rate := 0 |}.

(** ** The helpers exported beside the class ([mlUtils]) *)

Definition level_eqb (a b : RiskLevel) : bool :=
  match a, b with
  | LOW, LOW | MEDIUM, MEDIUM | HIGH, HIGH | CRITICAL, CRITICAL => true
  | _, _ => false
  end.

Module mlUtils.

(** [replacementCost] is an optional parameter with default 0.5. *)
Definition calculateRetentionROI (salary : R) (replacementCost : option R)
    : R :=
  salary * match replacementCost with Some c => c | None => 0.5 end.

Definition prioritizeInterventions (predictions : list ChurnPrediction)
    : list ChurnPrediction :=
  JS.sort (fun a b => risk_score b - risk_score a)
    (filter
       (fun p =>
          (level_eqb (risk_level p) HIGH
           || level_eqb (risk_level p) CRITICAL)%bool)
       predictions).

(** The [switch] on the factor string inside the [forEach]. *)
Definition insight_for (factor : string) : string :=
  if (factor =? "Below average performance rating")%string then
    "Consider performance improvement plan and additional training"
  else if (factor =? "Low engagement score")%string then
    "Schedule one-on-one meeting to discuss career goals and concerns"
  else if (factor =? "Poor work-life balance")%string then
    "Explore flexible work arrangements or workload adjustment"
  else if (factor =? "Below market salary")%string then
    "Review compensation package and consider salary adjustment"
  else "Monitor closely and provide additional support".

Definition generateActionableInsights (prediction : ChurnPrediction)
    : list string :=
  JS.reduce
    (fun insights factor (_ : nat) =>
       (insights ++ [insight_for factor])%list)
    (risk_factors prediction) [].

End mlUtils.

(** ** The query engine and its utilities

    Strings are sequences of ASCII characters: [toLowerCase] maps the letters
    A to Z and leaves every other character as it is, [length] counts
    characters.  The rows of a query result are objects whose fields hold
    JSON-like values. *)

Module Str.

Definition lower_char (c : Ascii.ascii) : Ascii.ascii :=
  let n := Ascii.nat_of_ascii c in
  if ((65 <=? n)%nat && (n <=? 90)%nat)%bool then Ascii.ascii_of_nat (n + 32) else c.

Fixpoint toLowerCase (s : string) : string :=
  match s with
  | EmptyString => EmptyString
  | String c s' => String (lower_char c) (toLowerCase s')
  end.

(** [s.includes(sub)]: [sub] occurs in [s] at some position. *)
Fixpoint includes (s sub : string) : bool :=
  if String.prefix sub s then true
  else
    match s with
    | EmptyString => false
    | String _ s' => includes s' sub
    end.

(** A template literal that spans several lines: its lines joined by line
    feeds. *)
Definition newline : string :=
  String (Ascii.ascii_of_nat 10) EmptyString.

Fixpoint lines (ls : list string) : string :=
  match ls with
  | [] => EmptyString
  | [l] => l
  | l :: ls' => (l ++ newline ++ lines ls')%string
  end.

End Str.

#[warnings="-register-all"]
Inductive Json :=
| JNum (x : R)
| JStr (s : string)
| JArr (items : list Json)
| JObj (fields : list (string * Json)).

(** A row of query results: an object, given by its entries. *)
Definition Row : Type := list (string * Json).

Module QueryEngine.

Open Scope string_scope.

Definition generateMockSQL (query : string) : string :=
  let queryLower := Str.toLowerCase query in
  if (Str.includes queryLower "high risk"
      || Str.includes queryLower "churn")%bool
  then
    Str.lines
      [ "SELECT e.id, e.name, e.department, cp.risk_score, cp.risk_level, cp.risk_factors";
        "FROM employees e";
        "JOIN churn_predictions cp ON e.id = cp.employee_id";
        "WHERE cp.risk_level IN ('HIGH', 'CRITICAL')";
        "ORDER BY cp.risk_score DESC";
        "LIMIT 10;" ]
  else if (Str.includes queryLower "engagement"
      && Str.includes queryLower "department")%bool
  then
    Str.lines
      [ "SELECT e.department, AVG(er.overall_score) as avg_engagement, COUNT(e.id) as employee_count";
        "FROM employees e";
        "JOIN engagement_records er ON e.id = er.employee_id";
        "GROUP BY e.department";
        "ORDER BY avg_engagement DESC;" ]
  else if (Str.includes queryLower "performance"
      || Str.includes queryLower "top performer")%bool
  then
    Str.lines
      [ "SELECT e.id, e.name, e.department, pr.rating, pr.review_date";
        "FROM employees e";
        "JOIN performance_records pr ON e.id = pr.employee_id";
        "WHERE pr.rating >= 4.0";
        "ORDER BY pr.rating DESC, pr.review_date DESC";
        "LIMIT 10;" ]
  else if (Str.includes queryLower "recent hire"
      || Str.includes queryLower "6 months")%bool
  then
    Str.lines
      [ "SELECT e.id, e.name, e.department, e.hire_date, ";
        "       AVG(pr.rating) as avg_performance,";
        "       AVG(er.overall_score) as avg_engagement";
        "FROM employees e";
        "LEFT JOIN performance_records pr ON e.id = pr.employee_id";
        "LEFT JOIN engagement_records er ON e.id = er.employee_id";
        "WHERE e.hire_date >= DATE_SUB(CURDATE(), INTERVAL 6 MONTH)";
        "GROUP BY e.id, e.name, e.department, e.hire_date";
        "ORDER BY e.hire_date DESC;" ]
  else "SELECT COUNT(*) as total_employees FROM employees;".

(** The canned result sets of [getMockResults]. *)
Definition churn_rows : list Row :=
  [ [ ("name", JStr "Mike Chen"); ("department", JStr "Engineering");
      ("risk_score", JNum 0.75); ("risk_level", JStr "HIGH");
      ("risk_factors",
       JArr [ JStr "Recent hire"; JStr "Below average engagement";
              JStr "Salary concerns" ]) ];
    [ ("name", JStr "Lisa Wang"); ("department", JStr "Marketing");
      ("risk_score", JNum 0.68); ("risk_level", JStr "HIGH");
      ("risk_factors",
       JArr [ JStr "Low performance rating";
              JStr "Manager relationship issues" ]) ] ].

Definition engagement_rows : list Row :=
  [ [ ("department", JStr "Engineering"); ("avg_engagement", JNum 8.2);
      ("employee_count", JNum 15) ];
    [ ("department", JStr "Marketing"); ("avg_engagement", JNum 7.8);
      ("employee_count", JNum 12) ];
    [ ("department", JStr "Sales"); ("avg_engagement", JNum 7.5);
      ("employee_count", JNum 20) ] ].

Definition performance_rows : list Row :=
  [ [ ("name", JStr "John Smith"); ("department", JStr "Engineering");
      ("latest_rating", JNum 4.5); ("review_date", JStr "2024-01-15") ];
    [ ("name", JStr "Sarah Johnson"); ("department", JStr "Marketing");
      ("latest_rating", JNum 4.0); ("review_date", JStr "2024-01-20") ] ].

Definition totals_rows : list Row :=
  [ [ ("total_employees", JNum 47); ("active_employees", JNum 45);
      ("recent_hires", JNum 8) ] ].

(** The default response carries the clock reading [stamp], the text
    [new Date().toISOString()] returns. *)
Definition default_rows (stamp : string) : list Row :=
  [ [ ("message", JStr "Query executed successfully");
      ("timestamp", JStr stamp) ] ].

Definition getMockResults (stamp : string) (sql : string) : list Row :=
  let sqlLower := Str.toLowerCase sql in
  if (Str.includes sqlLower "high risk"
      || Str.includes sqlLower "churn")%bool
  then churn_rows
  else if (Str.includes sqlLower "engagement"
      || Str.includes sqlLower "satisfaction")%bool
  then engagement_rows
  else if (Str.includes sqlLower "performance"
      || Str.includes sqlLower "rating")%bool
  then performance_rows
  else if (Str.includes sqlLower "count"
      || Str.includes sqlLower "total")%bool
  then totals_rows
  else default_rows stamp.

Record Validation := {
  valid : bool;
  error : option string
}.

Definition forbiddenKeywords : list string :=
  [ "drop"; "delete"; "update"; "insert"; "alter"; "create" ].

(** The loop returns at the first keyword the query includes. *)
Definition validateQuery (query : string) : Validation :=
  let queryLower := Str.toLowerCase query in
  match find (fun keyword => Str.includes queryLower keyword)
          forbiddenKeywords with
  | Some keyword =>
      {| valid := false;
         error := Some ("Query contains forbidden operation: " ++ keyword) |}
  | None =>
      if (500 <? String.length query)%nat then
        {| valid := false;
           error :=
             Some "Query is too long. Please keep it under 500 characters." |}
      else {| valid := true; error := None |}
  end.

End QueryEngine.

Module queryUtils.

Open Scope string_scope.

(** [metrics] is a plain object.  A property of it holds a number or, once
    something that is not a number has been added to, a string, whose text
    is not spelled out here.  Reading [metrics[key]] finds an own property,
    else one of the properties every object inherits from
    [Object.prototype] (functions, and the prototype itself under
    [__proto__]), else [undefined]. *)
Inductive Slot := SNum (x : R) | SText.

Inductive Read := ROwn (s : Slot) | RInherited | RUndefined.

Definition inherited : list string :=
  [ "constructor"; "__defineGetter__"; "__defineSetter__"; "hasOwnProperty";
    "__lookupGetter__"; "__lookupSetter__"; "isPrototypeOf";
    "propertyIsEnumerable"; "toString"; "valueOf"; "__proto__";
    "toLocaleString" ].

Fixpoint own (key : string) (metrics : list (string * Slot)) : option Slot :=
  match metrics with
  | [] => None
  | (k, v) :: rest => if k =? key then Some v else own key rest
  end.

Definition read (key : string) (metrics : list (string * Slot)) : Read :=
  match own key metrics with
  | Some s => ROwn s
  | None => if existsb (String.eqb key) inherited then RInherited
            else RUndefined
  end.

(** A new own property is added after the others, an existing one keeps its
    place. *)
Fixpoint assign (key : string) (v : Slot) (metrics : list (string * Slot))
    : list (string * Slot) :=
  match metrics with
  | [] => [(key, v)]
  | (k, w) :: rest =>
      if k =? key then (k, v) :: rest else (k, w) :: assign key v rest
  end.

(** [metrics[key] = v], for [v] a number or a string: under [__proto__] the
    inherited setter takes the value and, as it is no object, drops it. *)
Definition write (key : string) (v : Slot) (metrics : list (string * Slot))
    : list (string * Slot) :=
  if key =? "__proto__" then metrics else assign key v metrics.

(** [(metrics[key] || 0) + value]: a number when what was read is a number
    or [undefined]; an inherited function or object, and a string, are
    truthy and make the sum a string. *)
Definition or_zero_plus (r : Read) (value : R) : Slot :=
  match r with
  | ROwn (SNum v) => SNum ((if Req_dec_T v 0 then 0 else v) + value)
  | ROwn SText => SText
  | RInherited => SText
  | RUndefined => SNum (0 + value)
  end.

Definition extractMetrics (results : list Row) : list (string * Slot) :=
  JS.reduce
    (fun metrics (row : Row) (_ : nat) =>
       JS.reduce
         (fun metrics (entry : string * Json) (_ : nat) =>
            let '(key, value) := entry in
            match value with
            | JNum x => write key (or_zero_plus (read key metrics) x) metrics
            | _ => metrics
            end)
         row metrics)
    results [].

Definition categorizeRisk (riskScore : R) : string :=
  if Rle_dec 0.8 riskScore then "CRITICAL"
  else if Rle_dec 0.6 riskScore then "HIGH"
  else if Rle_dec 0.3 riskScore then "MEDIUM"
  else "LOW".

End queryUtils.

(** ** Notions used to state further properties *)

(** The name of a tier, as the string the type of [risk_level] spells. *)
Definition level_name (l : RiskLevel) : string :=
  match l with
  | LOW => "LOW"
  | MEDIUM => "MEDIUM"
  | HIGH => "HIGH"
  | CRITICAL => "CRITICAL"
  end.

(** [subseq l m]: [l] is [m] with some elements left out. *)
Inductive subseq {A : Type} : list A -> list A -> Prop :=
| subseq_nil : subseq [] []
| subseq_skip : forall x l m, subseq l m -> subseq l (x :: m)
| subseq_keep : forall x l m, subseq l m -> subseq (x :: l) (x :: m).

(** The ten factor strings in the order of their rules, and the fallback. *)
Definition rule_factors : list string :=
  [ "Below average performance rating"; "Declining performance trend";
    "Low engagement score"; "Declining engagement trend";
    "Poor work-life balance"; "Below market salary";
    "Frequent manager changes"; "High department turnover";
    "Long time since last promotion"; "Recent hire adjustment period" ]%string.

(** A sequence of calls of [setRiskThreshold] on one instance, failed calls
    being caught by the caller. *)
Definition set_all (ts : list number) (this : State) : State :=
  fold_left (fun st t => snd (setRiskThreshold t st)) ts this.

(** The predictions [prioritizeInterventions] keeps. *)
Definition urgent (p : ChurnPrediction) : bool :=
  (level_eqb (risk_level p) HIGH || level_eqb (risk_level p) CRITICAL)%bool.

(** A number lies in the interval [0,1]. *)
Definition within_unit (t : number) : Prop :=
  exists x, t = Num x /\ 0 <= x <= 1.

(** The guard of [setRiskThreshold] lets the value through. *)
Definition passes_guard (t : number) : bool :=
  negb (num_lt t (Num 0) || num_gt t (Num 1)).

(** [g] is at least as exposed as [f]: no protective feature is higher and
    no risk-increasing feature is lower. *)
Definition at_least_as_exposed (f g : FeatureVector) : Prop :=
  tenure_months g <= tenure_months f
  /\ avg_performance_rating g <= avg_performance_rating f
  /\ performance_trend g <= performance_trend f
  /\ avg_engagement_score g <= avg_engagement_score f
  /\ engagement_trend g <= engagement_trend f
  /\ salary_percentile g <= salary_percentile f
  /\ manager_changes f <= manager_changes g
  /\ department_turnover_rate f <= department_turnover_rate g
  /\ promotion_gap_months f <= promotion_gap_months g
  /\ work_life_balance_score g <= work_life_balance_score f.

(** The numbers a row holds under [key]. *)
Fixpoint numbers_at (key : string) (fields : list (string * Json)) : list R :=
  match fields with
  | [] => []
  | (k, JNum x) :: rest =>
      if (k =? key)%string then x :: numbers_at key rest
      else numbers_at key rest
  | _ :: rest => numbers_at key rest
  end.

(** The rule that pushes the factor string [factor], if it is one of the
    ten, holds on the features [f]. *)
Definition rule_holds (f : FeatureVector) (factor : string) : Prop :=
  (factor = "Below average performance rating"%string
   /\ avg_performance_rating f < 3.0)
  \/ (factor = "Declining performance trend"%string
      /\ performance_trend f < -0.3)
  \/ (factor = "Low engagement score"%string
      /\ avg_engagement_score f < 6.0)
  \/ (factor = "Declining engagement trend"%string
      /\ engagement_trend f < -0.3)
  \/ (factor = "Poor work-life balance"%string
      /\ work_life_balance_score f < 6.0)
  \/ (factor = "Below market salary"%string /\ salary_percentile f < 0.3)
  \/ (factor = "Frequent manager changes"%string /\ manager_changes f > 2)
  \/ (factor = "High department turnover"%string
      /\ department_turnover_rate f > 0.25)
  \/ (factor = "Long time since last promotion"%string
      /\ promotion_gap_months f > 36)
  \/ (factor = "Recent hire adjustment period"%string
      /\ tenure_months f < 6).

(** An optional number with a zero taken for a missing value, and the
    inputs of [predictChurn] with their zero salary and zero work-life
    sub-scores so forgotten. *)
Definition forget_zero (o : option R) : option R :=
  match o with
  | Some v => if Req_dec_T v 0 then None else Some v
  | None => None
  end.

Definition without_zero_salary (e : Employee) : Employee :=
  {| id := id e; hire_date := hire_date e;
     salary := forget_zero (salary e); department := department e |}.

Definition without_zero_balance (r : EngagementRecord) : EngagementRecord :=
  {| eng_employee_id := eng_employee_id r; survey_date := survey_date r;
     overall_score := overall_score r;
     work_life_balance := forget_zero (work_life_balance r) |}.

(** Adding the numbers [xs] to a metric that may not exist yet. *)
Definition add_numbers (o : option R) (xs : list R) : option R :=
  match xs with
  | [] => o
  | _ :: _ => Some (match o with Some v => v | None => 0 end + Rsum xs)
  end.

(** ** Rounding *)

Lemma Math_round_bounds (x : R) :
  x - 1 / 2 < JS.Math_round x <= x + 1 / 2.
Proof.
  unfold JS.Math_round.
  destruct (base_Int_part (x + 1 / 2)) as [Hle Hgt]. lra.
Qed.

Lemma Math_round_IZR (k : Z) : JS.Math_round (IZR k) = IZR k.
Proof.
  unfold JS.Math_round. f_equal. symmetry.
  apply Int_part_spec. lra.
Qed.

Lemma Math_round_mono (x y : R) :
  x <= y -> JS.Math_round x <= JS.Math_round y.
Proof.
  intros Hxy. unfold JS.Math_round.
  destruct (base_Int_part (x + 1 / 2)) as [Hx _].
  destruct (base_Int_part (y + 1 / 2)) as [_ Hy].
  apply IZR_le.
  assert (H : IZR (Int_part (x + 1 / 2)) < IZR (Int_part (y + 1 / 2)) + 1)
    by lra.
  rewrite <- plus_IZR in H. apply lt_IZR in H. lia.
Qed.

Lemma round3_rounded3 (x : R) :
  rounded3 x (JS.Math_round (x * 1000) / 1000).
Proof.
  split.
  - exists (Int_part (x * 1000 + 1 / 2)). reflexivity.
  - pose proof (Math_round_bounds (x * 1000)). lra.
Qed.

(** Rounding keeps a value between two bounds that are themselves whole
    numbers of thousandths. *)
Lemma round3_between (lo hi : Z) (x : R) :
  IZR lo / 1000 <= x <= IZR hi / 1000 ->
  IZR lo / 1000 <= JS.Math_round (x * 1000) / 1000 <= IZR hi / 1000.
Proof.
  intros [Hlo Hhi].
  assert (H1 : JS.Math_round (IZR lo) <= JS.Math_round (x * 1000))
    by (apply Math_round_mono; lra).
  assert (H2 : JS.Math_round (x * 1000) <= JS.Math_round (IZR hi))
    by (apply Math_round_mono; lra).
  rewrite Math_round_IZR in H1, H2. lra.
Qed.

(** ** The risk score *)

Lemma logistic_bounds (x : R) : 0 < logistic x < 1.
Proof.
  unfold logistic. pose proof (exp_pos (- x)) as He.
  split.
  - apply Rdiv_lt_0_compat; lra.
  - apply Rmult_lt_reg_r with (1 + exp (- x)); [lra|].
    unfold Rdiv. rewrite Rmult_assoc, Rinv_l by lra. lra.
Qed.

Lemma calculateRiskScore_spec (f : FeatureVector) :
  calculateRiskScore f = logistic (spec_log_odds f).
Proof.
  (* The loop over the ten entries of the table unfolds, each key selecting
     its field and its branch of the normalization switch, to the very sum
     of the specification. *)
  unfold calculateRiskScore, logistic, spec_log_odds.
  unfold JS.reduce, modelWeights, JS.reduce_from.
  reflexivity.
Qed.

(** C1.  The score [predict] computes is the logistic function of 0.5 plus
    the weighted sum of the ten normalized features, with the weights and the
    normalization table of the specification, and the [risk_score] field of
    the returned prediction is that value rounded to three decimal places. *)
Theorem risk_score_formula :
  (forall features : FeatureVector,
      calculateRiskScore features = 1 / (1 + exp (- spec_log_odds features)))
  /\ (forall (now : Z) (rid : string) (employee : Employee)
             (performanceHistory : list PerformanceRecord)
             (engagementHistory : list EngagementRecord)
             (departmentData : option DepartmentData),
         let features :=
           extractFeatures now employee performanceHistory engagementHistory
             departmentData in
         rounded3 (1 / (1 + exp (- spec_log_odds features)))
           (risk_score
              (predictChurn now rid employee performanceHistory
                 engagementHistory departmentData))).
Proof.
  split.
  - apply calculateRiskScore_spec.
  - intros now rid employee ph eh dd features.
    unfold predictChurn. cbn [risk_score]. fold features.
    rewrite calculateRiskScore_spec. apply round3_rounded3.
Qed.

(** ** Confidence *)

Lemma completeness_nonneg (f : FeatureVector) :
  0 <= INR (length (filter (fun v => if Req_dec_T v 0 then false else true)
                      (values f)))
       / INR (length (keys f)).
Proof.
  apply Rmult_le_pos; [apply pos_INR|].
  apply Rlt_le, Rinv_0_lt_compat. simpl. lra.
Qed.

Lemma calculateConfidence_bounds (f : FeatureVector) (riskScore : R) :
  0.7 <= calculateConfidence f riskScore <= 0.95.
Proof.
  unfold calculateConfidence.
  pose proof (completeness_nonneg f) as Hd.
  pose proof (Rabs_pos (riskScore - 0.5)) as He.
  set (d := INR _ / INR _) in *.
  unfold Rmin. destruct (Rle_dec _ 0.95); nra.
Qed.

(** C3.  The returned risk score lies in [0,1] and the returned confidence
    in [0, 0.95], whatever the inputs. *)
Theorem score_and_confidence_in_range :
  forall (now : Z) (rid : string) (employee : Employee)
         (performanceHistory : list PerformanceRecord)
         (engagementHistory : list EngagementRecord)
         (departmentData : option DepartmentData),
    let p :=
      predictChurn now rid employee performanceHistory engagementHistory
        departmentData in
    0 <= risk_score p <= 1 /\ 0 <= confidence p <= 0.95.
Proof.
  intros now rid employee ph eh dd p. subst p. unfold predictChurn.
  cbn [risk_score confidence].
  set (f := extractFeatures now employee ph eh dd).
  split.
  - assert (H : IZR 0 / 1000 <= calculateRiskScore f <= IZR 1000 / 1000).
    { rewrite calculateRiskScore_spec.
      pose proof (logistic_bounds (spec_log_odds f)). lra. }
    apply round3_between in H. lra.
  - pose proof (calculateConfidence_bounds f (calculateRiskScore f)) as Hc.
    assert (H : IZR 0 / 1000
                <= calculateConfidence f (calculateRiskScore f)
                <= IZR 950 / 1000) by lra.
    apply round3_between in H. lra.
Qed.

(** C10.  The confidence is never below its base 0.7: the value
    [calculateConfidence] computes lies in [0.7, 0.95] for every feature
    vector and every score, and so does the rounded [confidence] field of
    every returned prediction. *)
Theorem confidence_at_least_base :
  (forall (features : FeatureVector) (riskScore : R),
      0.7 <= calculateConfidence features riskScore <= 0.95)
  /\ (forall (now : Z) (rid : string) (employee : Employee)
             (performanceHistory : list PerformanceRecord)
             (engagementHistory : list EngagementRecord)
             (departmentData : option DepartmentData),
         0.7 <= confidence
                  (predictChurn now rid employee performanceHistory
                     engagementHistory departmentData) <= 0.95).
Proof.
  split.
  - apply calculateConfidence_bounds.
  - intros now rid employee ph eh dd. unfold predictChurn.
    cbn [confidence].
    set (f := extractFeatures now employee ph eh dd).
    pose proof (calculateConfidence_bounds f (calculateRiskScore f)) as H.
    assert (H' : IZR 700 / 1000
                 <= calculateConfidence f (calculateRiskScore f)
                 <= IZR 950 / 1000) by lra.
    apply round3_between in H'. lra.
Qed.

(** ** Department turnover *)

Lemma departmentTurnoverRate_cases (now : Z) (employee : Employee)
    (ph : list PerformanceRecord) (eh : list EngagementRecord)
    (dd : option DepartmentData) :
  department_turnover_rate (extractFeatures now employee ph eh dd)
  = match dd with
    | Some d => if Req_dec_T (turnover_rate d) 0 then 0.15 else turnover_rate d
    | None => 0.15
    end.
Proof. destruct dd; reflexivity. Qed.

(** C6.  A supplied department context whose turnover rate is 0 does not
    reach the feature vector: the feature is 0.15, the value meant for an
    absent context, because the default is attached with [||], which takes a
    zero for a missing value. *)
Theorem zero_turnover_replaced_by_default :
  forall (now : Z) (employee : Employee)
         (performanceHistory : list PerformanceRecord)
         (engagementHistory : list EngagementRecord),
    department_turnover_rate
      (extractFeatures now employee performanceHistory engagementHistory
         (Some no_turnover)) = 0.15
    /\ turnover_rate no_turnover <> 0.15.
Proof.
  intros now employee ph eh. rewrite departmentTurnoverRate_cases.
  unfold no_turnover. cbn [turnover_rate].
  destruct (Req_dec_T 0 0) as [_ | Hne]; [split; [reflexivity | lra] |].
  exfalso. apply Hne. reflexivity.
Qed.

(** ** The decision threshold *)

(** On every number other than NaN the guard does what is asked of it: a
    value outside [0,1], the infinities included, raises the validation
    error and leaves the instance as it was; a value inside [0,1] is stored
    and [getRiskThreshold] then returns it. *)
Lemma setRiskThreshold_guard (t : number) (this : State) :
  t <> NaN ->
  (~ within_unit t ->
     fst (setRiskThreshold t this)
     = inl (Err "Threshold must be between 0 and 1")
     /\ getRiskThreshold (snd (setRiskThreshold t this))
        = getRiskThreshold this)
  /\ (within_unit t ->
        fst (setRiskThreshold t this) = inr tt
        /\ getRiskThreshold (snd (setRiskThreshold t this)) = t).
Proof.
  intros Hnan. unfold setRiskThreshold, getRiskThreshold, within_unit, num_gt.
  destruct t as [x | | |]; cbn [num_lt orb]; try contradiction.
  - destruct (Rlt_dec x 0) as [H0 | H0]; destruct (Rlt_dec 1 x) as [H1 | H1];
      cbn [orb fst snd threshold]; split;
      try (intros _; split; reflexivity);
      try (intros (y & Hy & Hr); injection Hy as <-; exfalso; lra).
    intros Hout. exfalso. apply Hout. exists x. split; [reflexivity | lra].
  - cbn [fst snd threshold]. split; [intros _; split; reflexivity |].
    intros (y & Hy & _). discriminate.
  - cbn [fst snd threshold]. split; [intros _; split; reflexivity |].
    intros (y & Hy & _). discriminate.
Qed.

(** C7.  The value NaN lies outside [0,1], yet [setRiskThreshold] raises no
    error on it: both comparisons of the guard are false for NaN, the call
    returns normally and [getRiskThreshold] returns NaN afterwards, not the
    threshold there was before. *)
Theorem setRiskThreshold_accepts_NaN :
  forall this : State,
    ~ within_unit NaN
    /\ fst (setRiskThreshold NaN this) = inr tt
    /\ getRiskThreshold (snd (setRiskThreshold NaN this)) = NaN
    /\ getRiskThreshold initial <> NaN.
Proof.
  intros this. split.
  - intros (x & Hx & _). discriminate.
  - repeat split. unfold getRiskThreshold, initial. cbn [threshold].
    discriminate.
Qed.

(** ** Risk factors *)

Lemma push_if_skip {P Q : Prop} (c : {P} + {Q}) (s : string)
    (l : list string) :
  ~ P -> push_if c s l = l.
Proof. intros Hn. unfold push_if. destruct c; [contradiction | reflexivity]. Qed.

Lemma In_push_if {P Q : Prop} (c : {P} + {Q}) (s x : string)
    (l : list string) :
  In x (push_if c s l) -> In x l \/ (P /\ x = s).
Proof.
  unfold push_if. destruct c as [HP | HQ]; [|tauto].
  intros Hin. apply in_app_or in Hin. destruct Hin as [Hin | [Heq | []]].
  - left. exact Hin.
  - right. split; [exact HP | symmetry; exact Heq].
Qed.

Lemma identifyRiskFactors_nonempty (f : FeatureVector) (e : Employee) :
  identifyRiskFactors f e <> [].
Proof.
  unfold identifyRiskFactors.
  match goal with
  | |- context [(length ?l =? 0)%nat] => destruct l as [| s l']
  end; cbn [length Nat.eqb app]; discriminate.
Qed.

Lemma identifyRiskFactors_fallback (f : FeatureVector) (e : Employee) :
  no_rule_fires f ->
  identifyRiskFactors f e = ["Multiple minor risk indicators"%string].
Proof.
  intros (H1 & H2 & H3 & H4 & H5 & H6 & H7 & H8 & H9 & H10).
  unfold identifyRiskFactors.
  rewrite !push_if_skip by lra. reflexivity.
Qed.

(** A factor string on the list names a rule that fired, or is the
    fallback. *)
Lemma below_average_factor_inv (f : FeatureVector) (e : Employee) :
  In "Below average performance rating"%string (identifyRiskFactors f e) ->
  avg_performance_rating f < 3.0.
Proof.
  unfold identifyRiskFactors. intros Hin.
  match type of Hin with
  | In _ (if ?b then _ else _) =>
      destruct b;
      [apply in_app_or in Hin; destruct Hin as [Hin | [Heq | []]];
       [| discriminate Heq] |]
  end;
  (do 9 (apply In_push_if in Hin;
         destruct Hin as [Hin | [_ Heq]]; [| discriminate Heq]);
   apply In_push_if in Hin; destruct Hin as [[] | [Hlt _]]; exact Hlt).
Qed.

Lemma steady_features_quiet :
  no_rule_fires (extractFeatures steady_now steady_employee [] [] None).
Proof.
  unfold no_rule_fires, extractFeatures.
  cbn [tenure_months avg_performance_rating performance_trend
       avg_engagement_score engagement_trend salary_percentile
       manager_changes department_turnover_rate promotion_gap_months
       work_life_balance_score].
  change ((steady_now - hire_date steady_employee) / ms_per_month)%Z
    with 12%Z.
  cbn [length Nat.ltb Nat.leb map salary steady_employee option_map
       JS.or_default].
  unfold calculateTrend. cbn [length Nat.ltb Nat.leb].
  destruct (Req_dec_T 60000 0) as [Habs | _]; [lra |].
  unfold Rmin, Rmax.
  destruct (Rle_dec (60000 / 120000) 1.0); destruct (Rle_dec 0 (12 - 24));
    repeat split; lra.
Qed.

(** C8, as it holds.  The list of risk factors of a prediction is never
    empty, and when none of the ten threshold rules fires on the raw feature
    values it is the one-element list holding the fallback string, which the
    code spells with a capital letter: "Multiple minor risk indicators". *)
Theorem risk_factors_fallback :
  forall (now : Z) (rid : string) (employee : Employee)
         (performanceHistory : list PerformanceRecord)
         (engagementHistory : list EngagementRecord)
         (departmentData : option DepartmentData),
    let p :=
      predictChurn now rid employee performanceHistory engagementHistory
        departmentData in
    risk_factors p <> []
    /\ (no_rule_fires
          (extractFeatures now employee performanceHistory engagementHistory
             departmentData) ->
        risk_factors p = ["Multiple minor risk indicators"%string]).
Proof.
  intros now rid employee ph eh dd p. subst p.
  unfold predictChurn. cbn [risk_factors]. split.
  - apply identifyRiskFactors_nonempty.
  - apply identifyRiskFactors_fallback.
Qed.

Lemma risk_factors_fallback_witness :
  no_rule_fires (extractFeatures steady_now steady_employee [] [] None)
  /\ risk_factors (predictChurn steady_now "p1" steady_employee [] [] None)
     = ["Multiple minor risk indicators"%string].
Proof.
  split.
  - exact steady_features_quiet.
  - apply (proj2 (risk_factors_fallback steady_now "p1" steady_employee
                    [] [] None)).
    exact steady_features_quiet.
Defined.

(** C8, as the specification words it, fails: for the steady employee no
    rule fires, and the list is not the one holding the all-lower-case
    string "multiple minor risk indicators". *)
Lemma risk_factors_fallback_lowercase_fails :
  no_rule_fires (extractFeatures steady_now steady_employee [] [] None)
  /\ risk_factors (predictChurn steady_now "p1" steady_employee [] [] None)
     <> ["multiple minor risk indicators"%string].
Proof.
  split; [exact steady_features_quiet |].
  unfold predictChurn. cbn [risk_factors].
  rewrite (identifyRiskFactors_fallback _ _ steady_features_quiet).
  discriminate.
Qed.

(** C9.  With no performance record the average-rating feature is 3.0, and
    the factor "Below average performance rating" is not among the risk
    factors of the prediction: its rule asks for a rating strictly below
    3.0. *)
Theorem no_reviews_neutral_rating :
  forall (now : Z) (rid : string) (employee : Employee)
         (engagementHistory : list EngagementRecord)
         (departmentData : option DepartmentData),
    avg_performance_rating
      (extractFeatures now employee [] engagementHistory departmentData)
    = 3.0
    /\ ~ In "Below average performance rating"%string
         (risk_factors
            (predictChurn now rid employee [] engagementHistory
               departmentData)).
Proof.
  intros now rid employee eh dd. split; [reflexivity |].
  unfold predictChurn. cbn [risk_factors]. intros Hin.
  apply below_average_factor_inv in Hin.
  change (avg_performance_rating (extractFeatures now employee [] eh dd))
    with 3.0 in Hin.
  lra.
Qed.

(** ** Sums computed by [reduce] *)

Lemma reduce_from_isum {A : Type} (g : A -> nat -> R) (l : list A) :
  forall (i : nat) (acc : R),
    JS.reduce_from (fun sum x j => sum + g x j) i l acc = acc + isum g i l.
Proof.
  induction l as [| x l IH]; intros i acc; cbn [JS.reduce_from isum].
  - lra.
  - rewrite IH. lra.
Qed.

Lemma reduce_isum {A : Type} (g : A -> nat -> R) (l : list A) :
  JS.reduce (fun sum x j => sum + g x j) l 0 = isum g 0 l.
Proof. unfold JS.reduce. rewrite reduce_from_isum. lra. Qed.

Lemma isum_ext {A : Type} (g g' : A -> nat -> R) (l : list A) :
  forall i,
    (forall x j, In x l -> (i <= j)%nat -> g x j = g' x j) ->
    isum g i l = isum g' i l.
Proof.
  induction l as [| x l IH]; intros i H; cbn [isum]; [reflexivity |].
  rewrite (H x i) by (simpl; auto).
  rewrite (IH (S i)); [reflexivity |].
  intros y j Hy Hj. apply H; [right; exact Hy | lia].
Qed.

Lemma isum_plus {A : Type} (g g' : A -> nat -> R) (l : list A) :
  forall i, isum (fun x j => g x j + g' x j) i l = isum g i l + isum g' i l.
Proof.
  induction l as [| x l IH]; intros i; cbn [isum]; [lra |].
  rewrite IH. lra.
Qed.

Lemma isum_scal {A : Type} (c : R) (g : A -> nat -> R) (l : list A) :
  forall i, isum (fun x j => c * g x j) i l = c * isum g i l.
Proof.
  induction l as [| x l IH]; intros i; cbn [isum]; [lra |].
  rewrite IH. lra.
Qed.

Lemma isum_const {A : Type} (c : R) (l : list A) :
  forall i, isum (fun _ _ => c) i l = INR (length l) * c.
Proof.
  induction l as [| x l IH]; intros i; cbn [isum length]; [simpl; lra |].
  rewrite IH, S_INR. lra.
Qed.

Lemma isum_nonneg {A : Type} (g : A -> nat -> R) (l : list A) :
  forall i,
    (forall x j, In x l -> (i <= j)%nat -> 0 <= g x j) ->
    0 <= isum g i l.
Proof.
  induction l as [| x l IH]; intros i H; cbn [isum]; [lra |].
  assert (0 <= g x i) by (apply H; [left; reflexivity | lia]).
  assert (0 <= isum g (S i) l).
  { apply IH. intros y j Hy Hj. apply H; [right; exact Hy | lia]. }
  lra.
Qed.

Lemma isum_pos {A : Type} (g : A -> nat -> R) (l : list A) :
  forall i,
    l <> [] ->
    (forall x j, In x l -> (i <= j)%nat -> 0 < g x j) ->
    0 < isum g i l.
Proof.
  intros i Hne H. destruct l as [| x l]; [contradiction |].
  cbn [isum].
  assert (0 < g x i) by (apply H; [left; reflexivity | lia]).
  assert (0 <= isum g (S i) l).
  { apply isum_nonneg. intros y j Hy Hj.
    apply Rlt_le, H; [right; exact Hy | lia]. }
  lra.
Qed.

(** Prepending a point [x0] of rank [k] adds to the numerator the sum of
    the products (rank distance) * (value distance) to the other points. *)
Lemma slope_num_cons {A : Type} (h : A -> nat -> R) (k : nat) (x0 : A)
    (l : list A) :
  slope_num h k (x0 :: l)
  = slope_num h (S k) l
    + isum (fun x i => (INR i - INR k) * (h x i - h x0 k)) (S k) l.
Proof.
  unfold slope_num. cbn [isum length]. rewrite S_INR.
  rewrite (isum_ext (fun x i => (INR i - INR k) * (h x i - h x0 k))
             (fun x i => (INR i * h x i + (- INR k) * h x i)
                         + ((- h x0 k) * INR i + INR k * h x0 k)))
    by (intros; ring).
  rewrite !isum_plus, !isum_scal, isum_const. ring.
Qed.

Lemma rank_gap_pos (k j : nat) : (S k <= j)%nat -> 0 < INR j - INR k.
Proof.
  intros H. apply lt_INR in H. lra.
Qed.

(** The denominator of the slope is positive as soon as there are two
    points: the ranks are not all equal. *)
Lemma slope_den_pos {A : Type} (l : list A) :
  forall k,
    0 <= slope_num (fun _ i => INR i) k l
    /\ ((2 <= length l)%nat -> 0 < slope_num (fun _ i => INR i) k l).
Proof.
  induction l as [| x0 l IH]; intros k.
  - unfold slope_num. cbn [isum length]. split; [simpl; lra |].
    intros H. inversion H.
  - rewrite slope_num_cons. destruct (IH (S k)) as [IH0 _].
    assert (Hterm : forall (x : A) (j : nat),
               In x l -> (S k <= j)%nat ->
               0 < (INR j - INR k) * (INR j - INR k)).
    { intros x j _ Hj. pose proof (rank_gap_pos k j Hj). nra. }
    split.
    + assert (0 <= isum (fun (_ : A) i =>
                           (INR i - INR k) * (INR i - INR k)) (S k) l).
      { apply isum_nonneg. intros x j Hx Hj.
        apply Rlt_le. exact (Hterm x j Hx Hj). }
      lra.
    + intros Hlen. cbn [length] in Hlen.
      assert (0 < isum (fun (_ : A) i =>
                          (INR i - INR k) * (INR i - INR k)) (S k) l).
      { apply isum_pos; [| exact Hterm].
        destruct l; [cbn in Hlen; lia | discriminate]. }
      lra.
Qed.

(** The numerator is positive on two or more strictly increasing values. *)
Lemma slope_num_pos {A : Type} (v : A -> R) (l : list A) :
  StronglySorted (fun a b => v a < v b) l ->
  forall k,
    0 <= slope_num (fun x _ => v x) k l
    /\ ((2 <= length l)%nat -> 0 < slope_num (fun x _ => v x) k l).
Proof.
  induction 1 as [| x0 l Hsorted IH Hall]; intros k.
  - unfold slope_num. cbn [isum length]. split; [simpl; lra |].
    intros H. inversion H.
  - rewrite slope_num_cons. destruct (IH (S k)) as [IH0 _].
    rewrite Forall_forall in Hall.
    assert (Hterm : forall (x : A) (j : nat),
               In x l -> (S k <= j)%nat ->
               0 < (INR j - INR k) * (v x - v x0)).
    { intros x j Hx Hj. pose proof (rank_gap_pos k j Hj).
      pose proof (Hall x Hx). nra. }
    split.
    + assert (0 <= isum (fun x i => (INR i - INR k) * (v x - v x0))
                     (S k) l).
      { apply isum_nonneg. intros x j Hx Hj.
        apply Rlt_le. exact (Hterm x j Hx Hj). }
      lra.
    + intros Hlen. cbn [length] in Hlen.
      assert (0 < isum (fun x i => (INR i - INR k) * (v x - v x0))
                    (S k) l).
      { apply isum_pos; [| exact Hterm].
        destruct l; [cbn in Hlen; lia | discriminate]. }
      lra.
Qed.

Lemma slope_num_opp {A : Type} (v : A -> R) (k : nat) (l : list A) :
  slope_num (fun x _ => - v x) k l = - slope_num (fun x _ => v x) k l.
Proof.
  unfold slope_num.
  rewrite (isum_ext (fun x i => INR i * - v x)
             (fun x i => (-1) * (INR i * v x))) by (intros; ring).
  rewrite (isum_ext (fun x (_ : nat) => - v x)
             (fun x _ => (-1) * v x)) by (intros; ring).
  rewrite !isum_scal. ring.
Qed.

Lemma slope_num_neg {A : Type} (v : A -> R) (l : list A) :
  StronglySorted (fun a b => v a > v b) l ->
  (2 <= length l)%nat ->
  forall k, slope_num (fun x _ => v x) k l < 0.
Proof.
  intros Hs.
  assert (Hs' : StronglySorted (fun a b => - v a < - v b) l).
  { induction Hs as [| x0 l Hs IH Hall]; constructor; [exact IH |].
    rewrite Forall_forall in *. intros x Hx. specialize (Hall x Hx). lra. }
  intros Hlen k.
  destruct (slope_num_pos (fun x => - v x) l Hs' k) as [_ Hpos].
  specialize (Hpos Hlen). rewrite slope_num_opp in Hpos. lra.
Qed.

(** ** The hyperbolic tangent *)

Lemma cosh_pos (x : R) : 0 < cosh x.
Proof.
  unfold cosh. pose proof (exp_pos x). pose proof (exp_pos (- x)). lra.
Qed.

Lemma tanh_0 : tanh 0 = 0.
Proof. unfold tanh. rewrite sinh_0. lra. Qed.

Lemma tanh_pos (x : R) : 0 < x -> 0 < tanh x.
Proof.
  intros Hx. unfold tanh. apply Rdiv_lt_0_compat; [| apply cosh_pos].
  rewrite <- sinh_0. apply sinh_lt. exact Hx.
Qed.

Lemma tanh_neg (x : R) : x < 0 -> tanh x < 0.
Proof.
  intros Hx. unfold tanh.
  assert (Hs : sinh x < 0) by (rewrite <- sinh_0; apply sinh_lt; exact Hx).
  pose proof (cosh_pos x) as Hc.
  apply Ropp_lt_cancel. rewrite Ropp_0.
  replace (- (sinh x / cosh x)) with ((- sinh x) / cosh x)
    by (field; lra).
  apply Rdiv_lt_0_compat; lra.
Qed.

(** ** Sorting with a comparator that compares keys *)

Section SortFacts.

Context {A : Type} (cmp : A -> A -> R) (key : A -> R).
Hypothesis cmp_key : forall x y, cmp x y <= 0 <-> key x <= key y.

Lemma insert_perm (x : A) (l : list A) :
  Permutation (x :: l) (JS.insert cmp x l).
Proof.
  induction l as [| y l IH]; cbn [JS.insert]; [reflexivity |].
  destruct (Rle_dec (cmp x y) 0); [reflexivity |].
  rewrite perm_swap. apply perm_skip. exact IH.
Qed.

Lemma sort_perm (l : list A) : Permutation l (JS.sort cmp l).
Proof.
  induction l as [| x l IH]; cbn [JS.sort fold_right]; [reflexivity |].
  rewrite <- insert_perm. apply perm_skip. exact IH.
Qed.

Lemma sort_length (l : list A) : length (JS.sort cmp l) = length l.
Proof. symmetry. apply Permutation_length, sort_perm. Qed.

Lemma insert_sorted (x : A) (l : list A) :
  Sorted (key_le key) l -> Sorted (key_le key) (JS.insert cmp x l).
Proof.
  induction 1 as [| y l Hs IH Hhd]; cbn [JS.insert].
  - repeat constructor.
  - destruct (Rle_dec (cmp x y) 0) as [Hle | Hnle].
    + constructor; [constructor; assumption |].
      constructor. apply cmp_key. exact Hle.
    + constructor; [exact IH |].
      assert (Hyx : key_le key y x).
      { unfold key_le. rewrite <- cmp_key in *.
        destruct (Rle_dec (key y) (key x)) as [H | H];
          [apply cmp_key; exact H |].
        exfalso. apply Hnle, cmp_key. lra. }
      destruct l as [| z l]; cbn [JS.insert].
      * constructor. exact Hyx.
      * destruct (Rle_dec (cmp x z) 0); constructor;
          [exact Hyx | inversion Hhd; assumption].
Qed.

Lemma sort_sorted (l : list A) : Sorted (key_le key) (JS.sort cmp l).
Proof.
  induction l as [| x l IH]; cbn [JS.sort fold_right].
  - constructor.
  - apply insert_sorted. exact IH.
Qed.

Lemma sort_strongly_sorted (l : list A) :
  StronglySorted (key_le key) (JS.sort cmp l).
Proof.
  apply Sorted_StronglySorted; [| apply sort_sorted].
  intros a b c Hab Hbc. unfold key_le in *. lra.
Qed.

(** Stability: the elements of any one key keep their relative order. *)
Lemma insert_stable (v : R) (x : A) (l : list A) :
  filter (has_key key v) (JS.insert cmp x l) = filter (has_key key v) (x :: l).
Proof.
  induction l as [| y l IH]; cbn [JS.insert]; [reflexivity |].
  destruct (Rle_dec (cmp x y) 0) as [Hle | Hnle]; [reflexivity |].
  assert (Hne : key x <> key y).
  { intros Heq. apply Hnle, cmp_key. lra. }
  cbn [filter] in *. rewrite IH. unfold has_key.
  destruct (Req_dec_T (key x) v); destruct (Req_dec_T (key y) v);
    try reflexivity.
  exfalso. apply Hne. congruence.
Qed.

Lemma sort_stable (v : R) (l : list A) :
  filter (has_key key v) (JS.sort cmp l) = filter (has_key key v) l.
Proof.
  induction l as [| x l IH]; cbn [JS.sort fold_right]; [reflexivity |].
  rewrite insert_stable. cbn [filter]. fold (JS.sort cmp l).
  rewrite IH. reflexivity.
Qed.

(** An array already in order is left as it is. *)
Lemma sort_sorted_id (l : list A) :
  Sorted (key_le key) l -> JS.sort cmp l = l.
Proof.
  induction 1 as [| x l Hs IH Hhd]; cbn [JS.sort fold_right];
    [reflexivity |].
  fold (JS.sort cmp l). rewrite IH.
  destruct Hhd as [| y l Hxy]; cbn [JS.insert]; [reflexivity |].
  destruct (Rle_dec (cmp x y) 0) as [_ | Hn]; [reflexivity |].
  exfalso. apply Hn, cmp_key. exact Hxy.
Qed.

End SortFacts.

(** ** Least squares on ranks *)

Lemma sse_isum {A : Type} (v : A -> R) (a b : R) (l : list A) :
  forall k,
    sse (combine (map INR (seq k (length l))) (map v l)) a b
    = isum (fun x i => (v x - (a + b * INR i)) ^ 2) k l.
Proof.
  unfold sse.
  induction l as [| x l IH]; intros k;
    cbn [length seq map combine Rsum fold_right isum fst snd];
    [reflexivity |].
  fold (Rsum (map (fun p : R * R => (snd p - (a + b * fst p)) ^ 2)
                (combine (map INR (seq (S k) (length l))) (map v l)))).
  rewrite IH. reflexivity.
Qed.

Lemma sse_expand {A : Type} (v : A -> R) (a b : R) (k : nat) (l : list A) :
  isum (fun x i => (v x - (a + b * INR i)) ^ 2) k l
  = isum (fun x _ => v x * v x) k l
    - 2 * a * isum (fun x _ => v x) k l
    - 2 * b * isum (fun x i => INR i * v x) k l
    + INR (length l) * (a * a)
    + 2 * a * b * isum (fun _ i => INR i) k l
    + b * b * isum (fun _ i => INR i * INR i) k l.
Proof.
  rewrite (isum_ext (fun x i => (v x - (a + b * INR i)) ^ 2)
             (fun x i =>
                (((((v x * v x) + (- (2 * a)) * v x)
                   + (- (2 * b)) * (INR i * v x))
                  + a * a)
                 + (2 * a * b) * INR i)
                + (b * b) * (INR i * INR i)))
    by (intros; ring).
  rewrite !isum_plus, !isum_scal, isum_const. ring.
Qed.

(** A line that satisfies the two normal equations has the least sum of
    squared residuals. *)
Lemma normal_equations_least (n SX SY SXY SXX SYY a b a' b' : R) :
  0 < n -> 0 <= n * SXX - SX * SX ->
  SY = n * a + b * SX ->
  SXY = a * SX + b * SXX ->
  SYY - 2 * a * SY - 2 * b * SXY + n * (a * a) + 2 * a * b * SX
  + b * b * SXX
  <= SYY - 2 * a' * SY - 2 * b' * SXY + n * (a' * a') + 2 * a' * b' * SX
     + b' * b' * SXX.
Proof.
  intros Hn HD HY HXY. subst SY SXY.
  apply Rmult_le_reg_l with n; [exact Hn |].
  apply Rminus_le.
  match goal with
  | |- ?L - ?U <= 0 =>
      replace (L - U)
        with (- ((n * (a' - a) + (b' - b) * SX) ^ 2
                 + (b' - b) ^ 2 * (n * SXX - SX * SX))) by ring
  end.
  pose proof (pow2_ge_0 (n * (a' - a) + (b' - b) * SX)).
  pose proof (pow2_ge_0 (b' - b)).
  nra.
Qed.

(** With a positive denominator the slope of such a line is the only
    least-squares slope. *)
Lemma normal_equations_unique (n SX SY SXY SXX SYY a b a' b' : R) :
  0 < n -> 0 < n * SXX - SX * SX ->
  SY = n * a + b * SX ->
  SXY = a * SX + b * SXX ->
  SYY - 2 * a' * SY - 2 * b' * SXY + n * (a' * a') + 2 * a' * b' * SX
  + b' * b' * SXX
  <= SYY - 2 * a * SY - 2 * b * SXY + n * (a * a) + 2 * a * b * SX
     + b * b * SXX ->
  b' = b.
Proof.
  intros Hn HD HY HXY Hle. subst SY SXY.
  apply Rmult_le_compat_l with (r := n) in Hle; [| lra].
  apply Rle_minus in Hle.
  match type of Hle with
  | ?U - ?L <= 0 =>
      replace (U - L)
        with ((n * (a' - a) + (b' - b) * SX) ^ 2
              + (b' - b) ^ 2 * (n * SXX - SX * SX)) in Hle by ring
  end.
  pose proof (pow2_ge_0 (n * (a' - a) + (b' - b) * SX)) as H1.
  pose proof (pow2_ge_0 (b' - b)) as H2.
  assert (H3 : (b' - b) ^ 2 = 0) by nra.
  assert (H4 : b' - b = 0).
  { destruct (Req_dec (b' - b) 0) as [H | H]; [exact H |].
    exfalso. apply (pow_nonzero _ 2) in H. contradiction. }
  lra.
Qed.

(** The quotient [calculateTrend] forms is the least-squares slope of the
    values against their ranks, and the only one. *)
Lemma rank_slope_least_squares {A : Type} (v : A -> R) (l : list A) :
  (2 <= length l)%nat ->
  let b := slope_num (fun x _ => v x) 0 l
           / slope_num (fun _ i => INR i) 0 l in
  least_squares_slope (ranked (map v l)) b
  /\ (forall b', least_squares_slope (ranked (map v l)) b' -> b' = b).
Proof.
  intros Hlen b.
  destruct (slope_den_pos l 0%nat) as [_ HD]. specialize (HD Hlen).
  assert (Hn : 0 < INR (length l)) by (apply lt_0_INR; lia).
  set (n := INR (length l)) in *.
  set (SX := isum (fun (_ : A) i => INR i) 0 l).
  set (SY := isum (fun x (_ : nat) => v x) 0 l).
  set (SXY := isum (fun x i => INR i * v x) 0 l).
  set (SXX := isum (fun (_ : A) i => INR i * INR i) 0 l).
  set (SYY := isum (fun x (_ : nat) => v x * v x) 0 l).
  assert (HDe : slope_num (fun (_ : A) i => INR i) 0 l = n * SXX - SX * SX)
    by reflexivity.
  assert (HNe : slope_num (fun x (_ : nat) => v x) 0 l = n * SXY - SX * SY)
    by reflexivity.
  set (a := (SY - b * SX) / n).
  assert (HY : SY = n * a + b * SX) by (unfold a; field; lra).
  assert (Hb : b * (n * SXX - SX * SX) = n * SXY - SX * SY).
  { unfold b. rewrite HDe, HNe. field. lra. }
  assert (HXY : SXY = a * SX + b * SXX).
  { apply Rmult_eq_reg_l with n; [| lra].
    replace (n * (a * SX + b * SXX))
      with ((n * a) * SX + b * (n * SXX)) by ring.
    replace (n * a) with (SY - b * SX) by lra. nra. }
  assert (Hsse : forall a0 b0,
             sse (ranked (map v l)) a0 b0
             = SYY - 2 * a0 * SY - 2 * b0 * SXY + n * (a0 * a0)
               + 2 * a0 * b0 * SX + b0 * b0 * SXX).
  { intros a0 b0. unfold ranked. rewrite length_map.
    rewrite sse_isum, sse_expand. reflexivity. }
  split.
  - exists a. intros a' b'. rewrite !Hsse.
    apply normal_equations_least; [exact Hn | lra | exact HY | exact HXY].
  - intros b' [a' Hmin]. specialize (Hmin a b). rewrite !Hsse in Hmin.
    rewrite HDe in HD.
    exact (normal_equations_unique n SX SY SXY SXX SYY a b a' b'
             Hn HD HY HXY Hmin).
Qed.

(** ** The trend estimator *)

Lemma by_date_key (x y : TrendPoint) :
  IZR (date x) - IZR (date y) <= 0 <-> IZR (date x) <= IZR (date y).
Proof. lra. Qed.

Lemma calculateTrend_short (data : list TrendPoint) :
  (length data < 2)%nat -> calculateTrend data = 0.
Proof.
  intros H. unfold calculateTrend.
  apply Nat.ltb_lt in H. rewrite H. reflexivity.
Qed.

Lemma calculateTrend_slope (data : list TrendPoint) :
  (2 <= length data)%nat ->
  let sorted := JS.sort (fun a b => IZR (date a) - IZR (date b)) data in
  calculateTrend data
  = tanh (slope_num (fun x _ => value x) 0 sorted
          / slope_num (fun _ i => INR i) 0 sorted).
Proof.
  intros H sorted. unfold calculateTrend.
  apply Nat.ltb_ge in H. rewrite H. fold sorted. cbv zeta.
  unfold slope_num. rewrite <- !reduce_isum. reflexivity.
Qed.

Lemma Sorted_weaken {A : Type} (R1 R2 : A -> A -> Prop) (l : list A) :
  (forall a b, R1 a b -> R2 a b) -> Sorted R1 l -> Sorted R2 l.
Proof.
  intros Himp. induction 1 as [| x l Hs IH Hhd]; constructor; [exact IH |].
  destruct Hhd; constructor. apply Himp. assumption.
Qed.

Lemma Sorted_Rlt_strong {A : Type} (v : A -> R) (l : list A) :
  Sorted Rlt (map v l) -> StronglySorted (fun a b => v a < v b) l.
Proof.
  intros H. apply Sorted_StronglySorted in H;
    [| intros a b c; apply Rlt_trans].
  induction l as [| x l IH]; [constructor |].
  cbn [map] in H. apply StronglySorted_inv in H. destruct H as [Hs Hall].
  constructor; [apply IH; exact Hs |].
  rewrite Forall_forall in *. intros y Hy. apply Hall, in_map, Hy.
Qed.

Lemma Sorted_Rgt_strong {A : Type} (v : A -> R) (l : list A) :
  Sorted Rgt (map v l) -> StronglySorted (fun a b => v a > v b) l.
Proof.
  intros H. apply Sorted_StronglySorted in H;
    [| intros a b c Hab Hbc; unfold Rgt in *; lra].
  induction l as [| x l IH]; [constructor |].
  cbn [map] in H. apply StronglySorted_inv in H. destruct H as [Hs Hall].
  constructor; [apply IH; exact Hs |].
  rewrite Forall_forall in *. intros y Hy. apply Hall, in_map, Hy.
Qed.

(** C4.  With fewer than two points the trend is exactly 0.  Otherwise the
    points are put in ascending order of date and the trend is the
    hyperbolic tangent of the least-squares slope of the values against
    their ranks 0, 1, 2, ... in that order (the dates themselves play no
    further part); hence values that strictly increase in date order give a
    strictly positive trend and values that strictly decrease give a
    strictly negative one. *)
Theorem trend_is_rank_regression :
  forall data : list TrendPoint,
    ((length data < 2)%nat -> calculateTrend data = 0)
    /\ ((2 <= length data)%nat ->
        let sorted :=
          JS.sort (fun a b => IZR (date a) - IZR (date b)) data in
        let points := ranked (map value sorted) in
        Permutation data sorted
        /\ Sorted (fun a b => (date a <= date b)%Z) sorted
        /\ (exists b,
               calculateTrend data = tanh b
               /\ least_squares_slope points b
               /\ (forall b', least_squares_slope points b' -> b' = b))
        /\ (Sorted Rlt (map value sorted) -> 0 < calculateTrend data)
        /\ (Sorted Rgt (map value sorted) -> calculateTrend data < 0)).
Proof.
  intros data. split; [apply calculateTrend_short |].
  intros Hlen sorted points.
  assert (Hlen' : (2 <= length sorted)%nat).
  { unfold sorted. rewrite (sort_length _ data). exact Hlen. }
  pose proof (calculateTrend_slope data Hlen) as Htrend.
  cbv zeta in Htrend. fold sorted in Htrend.
  destruct (slope_den_pos sorted 0%nat) as [_ HD]. specialize (HD Hlen').
  split; [apply sort_perm |].
  split.
  { pose proof (sort_sorted _ (fun p => IZR (date p)) by_date_key data)
      as Hs.
    fold sorted in Hs. revert Hs. apply Sorted_weaken.
    intros a b Hab. apply le_IZR. exact Hab. }
  split.
  { eexists. split; [exact Htrend |].
    exact (rank_slope_least_squares value sorted Hlen'). }
  split.
  - intros Hinc. rewrite Htrend. apply tanh_pos.
    apply Rdiv_lt_0_compat; [| exact HD].
    apply (slope_num_pos value sorted (Sorted_Rlt_strong _ _ Hinc) 0%nat).
    exact Hlen'.
  - intros Hdec. rewrite Htrend. apply tanh_neg.
    pose proof (slope_num_neg value sorted (Sorted_Rgt_strong _ _ Hdec)
                  Hlen' 0%nat) as HN.
    apply Ropp_lt_cancel. rewrite Ropp_0.
    replace (- (slope_num (fun x _ => value x) 0 sorted
                / slope_num (fun _ i => INR i) 0 sorted))
      with ((- slope_num (fun x _ => value x) 0 sorted)
            / slope_num (fun _ i => INR i) 0 sorted) by (field; lra).
    apply Rdiv_lt_0_compat; lra.
Qed.

Lemma declining_reviews_in_order :
  JS.sort (fun a b => IZR (date a) - IZR (date b)) declining_reviews
  = declining_reviews.
Proof.
  apply (sort_sorted_id _ (fun p => IZR (date p)) by_date_key).
  unfold declining_reviews.
  repeat constructor; cbn [date]; lra.
Qed.

Lemma rising_reviews_in_order :
  JS.sort (fun a b => IZR (date a) - IZR (date b)) rising_reviews
  = rising_reviews.
Proof.
  apply (sort_sorted_id _ (fun p => IZR (date p)) by_date_key).
  unfold rising_reviews.
  repeat constructor; cbn [date]; lra.
Qed.

Lemma trend_is_rank_regression_witness :
  calculateTrend [] = 0
  /\ calculateTrend declining_reviews < 0
  /\ 0 < calculateTrend rising_reviews.
Proof.
  split; [| split].
  - apply (proj1 (trend_is_rank_regression [])). cbn [length]. lia.
  - assert (H : (2 <= length declining_reviews)%nat) by (cbn; lia).
    apply (proj2 (trend_is_rank_regression declining_reviews) H).
    rewrite declining_reviews_in_order. unfold declining_reviews.
    cbn [map value]. repeat constructor; lra.
  - assert (H : (2 <= length rising_reviews)%nat) by (cbn; lia).
    apply (proj2 (trend_is_rank_regression rising_reviews) H).
    rewrite rising_reviews_in_order. unfold rising_reviews.
    cbn [map value]. repeat constructor; lra.
Defined.

(** ** Batch prediction *)

Lemma reduce_from_push {A B : Type} (g : A -> nat -> B) (l : list A) :
  forall (i : nat) (acc : list B),
    JS.reduce_from (fun acc x k => (acc ++ [g x k])%list) i l acc
    = (acc ++ mapi_from g i l)%list.
Proof.
  induction l as [| x l IH]; intros i acc; cbn [JS.reduce_from mapi_from].
  - rewrite app_nil_r. reflexivity.
  - rewrite IH, <- app_assoc. reflexivity.
Qed.

Lemma mapi_from_length {A B : Type} (g : A -> nat -> B) (l : list A) :
  forall i, length (mapi_from g i l) = length l.
Proof.
  induction l as [| x l IH]; intros i; cbn [mapi_from length];
    [reflexivity |].
  rewrite IH. reflexivity.
Qed.

Lemma mapi_from_map {A B C : Type} (g : A -> nat -> B) (f : B -> C)
    (h : A -> C) (l : list A) :
  (forall x k, f (g x k) = h x) ->
  forall i, map f (mapi_from g i l) = map h l.
Proof.
  intros H. induction l as [| x l IH]; intros i; cbn [mapi_from map];
    [reflexivity |].
  rewrite H, IH. reflexivity.
Qed.

Lemma batchPredict_sort (clock : nat -> Z) (ids : nat -> string)
    (employees : list Employee) (performanceData : list PerformanceRecord)
    (engagementData : list EngagementRecord) :
  batchPredict clock ids employees performanceData engagementData
  = JS.sort (fun a b => risk_score b - risk_score a)
      (predict_each clock ids performanceData engagementData employees).
Proof.
  unfold batchPredict, predict_each, JS.reduce. f_equal.
  exact (reduce_from_push
           (fun employee k =>
              predictChurn (clock k) (ids k) employee
                (filter (fun p => (perf_employee_id p =? id employee)%string)
                   performanceData)
                (filter (fun e => (eng_employee_id e =? id employee)%string)
                   engagementData)
                None)
           employees 0%nat []).
Qed.

Lemma by_score_key (a b : ChurnPrediction) :
  risk_score b - risk_score a <= 0 <-> - risk_score a <= - risk_score b.
Proof. lra. Qed.

Lemma with_score_key (v : R) (l : list ChurnPrediction) :
  with_score v l = filter (has_key (fun p => - risk_score p) (- v)) l.
Proof.
  unfold with_score, has_key. apply filter_ext. intros p.
  destruct (Req_dec_T (risk_score p) v);
    destruct (Req_dec_T (- risk_score p) (- v)); try reflexivity;
    exfalso; lra.
Qed.

(** C5.  [batchPredict] returns one prediction per input employee, in
    descending order of [risk_score], and predictions of equal score keep
    the order of their employees in the input. *)
Theorem batchPredict_sorted_stable :
  forall (clock : nat -> Z) (ids : nat -> string)
         (employees : list Employee)
         (performanceData : list PerformanceRecord)
         (engagementData : list EngagementRecord),
    let result :=
      batchPredict clock ids employees performanceData engagementData in
    let each :=
      predict_each clock ids performanceData engagementData employees in
    map employee_id each = map id employees
    /\ Permutation each result
    /\ length result = length employees
    /\ StronglySorted (fun a b => risk_score a >= risk_score b) result
    /\ (forall v : R, with_score v result = with_score v each).
Proof.
  intros clock ids employees pd ed result each.
  assert (Hres : result
                 = JS.sort (fun a b => risk_score b - risk_score a) each)
    by apply batchPredict_sort.
  split.
  { unfold each, predict_each. apply mapi_from_map. reflexivity. }
  split.
  { rewrite Hres. apply sort_perm. }
  split.
  { rewrite Hres, (sort_length _ each).
    unfold each, predict_each. apply mapi_from_length. }
  split.
  { rewrite Hres.
    pose proof (sort_strongly_sorted _ (fun p => - risk_score p)
                  by_score_key each) as Hs.
    revert Hs. generalize (JS.sort (fun a b => risk_score b - risk_score a)
                             each).
    induction 1 as [| x l Hs IH Hall]; constructor; [exact IH |].
    rewrite Forall_forall in *. intros y Hy. specialize (Hall y Hy).
    unfold key_le in Hall. lra. }
  intros v. rewrite Hres, !with_score_key.
  apply (sort_stable _ (fun p => - risk_score p) by_score_key).
Qed.

(** ** Rational bounds on the exponential *)

Lemma exp_INR_mult (n : nat) (y : R) : exp (INR n * y) = exp y ^ n.
Proof.
  induction n as [| n IH].
  - cbn [INR pow]. rewrite Rmult_0_l. apply exp_0.
  - rewrite S_INR. replace ((INR n + 1) * y) with (y + INR n * y) by ring.
    rewrite exp_plus, IH. reflexivity.
Qed.

Lemma exp_pow_lower (n : nat) (y : R) :
  0 <= 1 + y -> (1 + y) ^ n <= exp (INR n * y).
Proof.
  intros Hy. rewrite exp_INR_mult. apply pow_incr.
  split; [exact Hy | apply exp_ineq1_le].
Qed.

Lemma exp_pow_upper (n : nat) (y : R) :
  y < 1 -> exp (INR n * y) <= (/ (1 - y)) ^ n.
Proof.
  intros Hy. rewrite exp_INR_mult. apply pow_incr.
  split; [apply Rlt_le, exp_pos |].
  replace y with (- - y) at 1 by ring. rewrite exp_Ropp.
  apply Rinv_le_contravar; [lra |].
  pose proof (exp_ineq1_le (- y)). lra.
Qed.

(** [c/d <= exp (n p / q)] follows from an inequality between integers,
    [c q^n <= d (q + p)^n], and [exp (n p / q) <= c/d] from
    [d q^n <= c (q - p)^n]. *)
Lemma exp_ge_ratio (n : nat) (p q c d : Z) :
  (0 < q)%Z -> (0 <= q + p)%Z -> (0 < d)%Z ->
  (c * q ^ Z.of_nat n <= d * (q + p) ^ Z.of_nat n)%Z ->
  IZR c / IZR d <= exp (INR n * (IZR p / IZR q)).
Proof.
  intros Hq Hqp Hd Hle.
  apply IZR_lt in Hq, Hd. apply IZR_le in Hqp, Hle.
  rewrite plus_IZR in Hqp.
  rewrite !mult_IZR, <- !pow_IZR, plus_IZR in Hle.
  assert (Hqn : 0 < IZR q ^ n) by (apply pow_lt; exact Hq).
  apply Rle_trans with ((1 + IZR p / IZR q) ^ n).
  - replace (1 + IZR p / IZR q) with ((IZR q + IZR p) / IZR q)
      by (field; lra).
    unfold Rdiv at 2. rewrite Rpow_mult_distr, pow_inv.
    apply Rmult_le_reg_r with (IZR d); [exact Hd |].
    apply Rmult_le_reg_r with (IZR q ^ n); [exact Hqn |].
    replace (IZR c / IZR d * IZR d * IZR q ^ n) with (IZR c * IZR q ^ n)
      by (field; lra).
    replace ((IZR q + IZR p) ^ n * / IZR q ^ n * IZR d * IZR q ^ n)
      with (IZR d * (IZR q + IZR p) ^ n) by (field; lra).
    exact Hle.
  - apply exp_pow_lower.
    replace (1 + IZR p / IZR q) with ((IZR q + IZR p) / IZR q)
      by (field; lra).
    apply Rmult_le_pos; [lra | apply Rlt_le, Rinv_0_lt_compat; exact Hq].
Qed.

Lemma exp_le_ratio (n : nat) (p q c d : Z) :
  (0 < q)%Z -> (0 < q - p)%Z -> (0 < d)%Z ->
  (d * q ^ Z.of_nat n <= c * (q - p) ^ Z.of_nat n)%Z ->
  exp (INR n * (IZR p / IZR q)) <= IZR c / IZR d.
Proof.
  intros Hq Hqp Hd Hle.
  apply IZR_lt in Hq, Hqp, Hd. apply IZR_le in Hle.
  rewrite minus_IZR in Hqp.
  rewrite !mult_IZR, <- !pow_IZR, minus_IZR in Hle.
  assert (Hqn : 0 < (IZR q - IZR p) ^ n) by (apply pow_lt; exact Hqp).
  apply Rle_trans with ((/ (1 - IZR p / IZR q)) ^ n).
  - apply exp_pow_upper.
    apply Rmult_lt_reg_r with (IZR q); [exact Hq |].
    unfold Rdiv. rewrite Rmult_assoc, Rinv_l by lra. lra.
  - replace (/ (1 - IZR p / IZR q)) with (IZR q / (IZR q - IZR p))
      by (field; lra).
    unfold Rdiv at 1. rewrite Rpow_mult_distr, pow_inv.
    apply Rmult_le_reg_r with (IZR d); [exact Hd |].
    apply Rmult_le_reg_r with ((IZR q - IZR p) ^ n); [exact Hqn |].
    replace (IZR q ^ n * / (IZR q - IZR p) ^ n * IZR d
             * (IZR q - IZR p) ^ n)
      with (IZR d * IZR q ^ n) by (field; lra).
    replace (IZR c / IZR d * IZR d * (IZR q - IZR p) ^ n)
      with (IZR c * (IZR q - IZR p) ^ n) by (field; lra).
    exact Hle.
Qed.

Ltac z_decide := apply Zle_bool_imp_le; vm_compute; reflexivity.

Lemma exp_3_bounds : 1999 / 100 <= exp 3 <= 2018 / 100.
Proof.
  replace 3 with (INR 1024 * (IZR 3 / IZR 1024))
    by (rewrite INR_IZR_INZ; change (Z.of_nat 1024) with 1024%Z; lra).
  split.
  - apply (exp_ge_ratio 1024 3 1024 1999 100); [lia | lia | lia | z_decide].
  - apply (exp_le_ratio 1024 3 1024 2018 100); [lia | lia | lia | z_decide].
Qed.

Lemma exp_14_lower : 16384 <= exp 14.
Proof.
  replace 14 with (INR 14 * (IZR 1 / IZR 1))
    by (rewrite INR_IZR_INZ; change (Z.of_nat 14) with 14%Z; lra).
  replace 16384 with (IZR 16384 / IZR 1) by lra.
  apply (exp_ge_ratio 14 1 1 16384 1); [lia | lia | lia | z_decide].
Qed.

Lemma exp_4043_lower : 1497 / 1000 <= exp (4043 / 10000).
Proof.
  replace (4043 / 10000) with (INR 512 * (IZR 4043 / IZR 5120000))
    by (rewrite INR_IZR_INZ; change (Z.of_nat 512) with 512%Z; lra).
  apply (exp_ge_ratio 512 4043 5120000 1497 1000); [lia | lia | lia | z_decide].
Qed.

Lemma exp_4047_upper : exp (4047 / 10000) <= 14995 / 10000.
Proof.
  replace (4047 / 10000) with (INR 512 * (IZR 4047 / IZR 5120000))
    by (rewrite INR_IZR_INZ; change (Z.of_nat 512) with 512%Z; lra).
  apply (exp_le_ratio 512 4047 5120000 14995 10000); [lia | lia | lia | z_decide].
Qed.

Lemma le_div (a b c : R) : 0 < c -> a * c <= b -> a <= b / c.
Proof.
  intros Hc H. apply Rmult_le_reg_r with c; [exact Hc |].
  replace (b / c * c) with b by (field; lra). exact H.
Qed.

Lemma div_le (a b c : R) : 0 < c -> b <= a * c -> b / c <= a.
Proof.
  intros Hc H. apply Rmult_le_reg_r with c; [exact Hc |].
  replace (b / c * c) with b by (field; lra). exact H.
Qed.

Lemma tanh_exp (z : R) : tanh z = (exp (2 * z) - 1) / (exp (2 * z) + 1).
Proof.
  unfold tanh, sinh, cosh.
  replace (2 * z) with (z + z) by ring.
  rewrite exp_plus, exp_Ropp.
  pose proof (exp_pos z). field. nra.
Qed.

Lemma tanh_bounds (z L U : R) :
  0 < L -> L <= exp (2 * z) <= U ->
  (L - 1) / (L + 1) <= tanh z <= (U - 1) / (U + 1).
Proof.
  intros HL [HLE HEU]. rewrite tanh_exp.
  set (E := exp (2 * z)) in *.
  assert (Hmono : forall a b, 0 < a -> a <= b ->
                    (a - 1) / (a + 1) <= (b - 1) / (b + 1)).
  { intros a b Ha Hab.
    apply Rmult_le_reg_r with ((a + 1) * (b + 1)); [nra |].
    replace ((a - 1) / (a + 1) * ((a + 1) * (b + 1)))
      with ((a - 1) * (b + 1)) by (field; lra).
    replace ((b - 1) / (b + 1) * ((a + 1) * (b + 1)))
      with ((b - 1) * (a + 1)) by (field; lra).
    nra. }
  split; apply Hmono; lra.
Qed.

Lemma tanh_lt_1 (z : R) : tanh z < 1.
Proof.
  rewrite tanh_exp. pose proof (exp_pos (2 * z)) as HE.
  apply Rmult_lt_reg_r with (exp (2 * z) + 1); [lra |].
  replace ((exp (2 * z) - 1) / (exp (2 * z) + 1) * (exp (2 * z) + 1))
    with (exp (2 * z) - 1) by (field; lra).
  lra.
Qed.

Lemma tanh_15_bounds : 0.9047 <= tanh 1.5 <= 0.9056.
Proof.
  pose proof exp_3_bounds as HE.
  destruct (tanh_bounds 1.5 (1999 / 100) (2018 / 100)) as [Hlo Hhi];
    [lra | replace (2 * 1.5) with 3 by lra; exact HE |].
  split.
  - apply Rle_trans with ((1999 / 100 - 1) / (1999 / 100 + 1));
      [| exact Hlo].
    apply le_div; lra.
  - apply Rle_trans with ((2018 / 100 - 1) / (2018 / 100 + 1));
      [exact Hhi |].
    apply div_le; lra.
Qed.

Lemma tanh_7_bounds : 0.9998 <= tanh 7 < 1.
Proof.
  split; [| apply tanh_lt_1].
  pose proof exp_14_lower as HE.
  destruct (tanh_bounds 7 16384 (exp 14)) as [Hlo _];
    [lra | replace (2 * 7) with 14 by lra; lra |].
  apply Rle_trans with ((16384 - 1) / (16384 + 1)); [| exact Hlo].
  apply le_div; lra.
Qed.
Lemma borderline_features :
  extractFeatures borderline_now borderline_employee [] [] None
  = {| tenure_months := 0; avg_performance_rating := 3.0;
       performance_trend := 0; avg_engagement_score := 7.0;
       engagement_trend := 0; salary_percentile := 0.5375;
       manager_changes := 0; department_turnover_rate := 0.15;
       promotion_gap_months := 0; work_life_balance_score := 7.0 |}.
Proof.
  unfold extractFeatures.
  change ((borderline_now - hire_date borderline_employee) / ms_per_month)%Z
    with 0%Z.
  cbn [length Nat.ltb Nat.leb map salary borderline_employee option_map
       JS.or_default].
  unfold calculateTrend. cbn [length Nat.ltb Nat.leb].
  destruct (Req_dec_T 64500 0) as [Habs | _]; [exfalso; lra |].
  replace (Rmin (64500 / 120000) 1.0) with 0.5375
    by (unfold Rmin; destruct (Rle_dec (64500 / 120000) 1.0); lra).
  replace (Rmax 0 (0 - 24)) with 0
    by (unfold Rmax; destruct (Rle_dec 0 (0 - 24)); lra).
  reflexivity.
Qed.

Lemma borderline_log_odds :
  spec_log_odds
    (extractFeatures borderline_now borderline_employee [] [] None)
  = 0.391 + 0.28 * tanh 1.5 - 0.24 * tanh 7.
Proof.
  rewrite borderline_features. unfold spec_log_odds.
  cbn [tenure_months avg_performance_rating performance_trend
       avg_engagement_score engagement_trend salary_percentile
       manager_changes department_turnover_rate promotion_gap_months
       work_life_balance_score].
  replace (0 / 60) with 0 by lra. replace (0 / 36) with 0 by lra.
  replace (0.15 * 10) with 1.5 by lra. replace 7.0 with 7 by lra.
  rewrite tanh_0. lra.
Qed.

Lemma exp_le_mono (x y : R) : x <= y -> exp x <= exp y.
Proof.
  intros [Hlt | Heq]; [apply Rlt_le, exp_increasing; exact Hlt |].
  rewrite Heq. apply Rle_refl.
Qed.

(** The unrounded score of the borderline employee is just below 0.6, and
    within half a thousandth of it. *)
Lemma borderline_raw_score :
  0.5995 <= calculateRiskScore
              (extractFeatures borderline_now borderline_employee [] [] None)
         < 0.6.
Proof.
  rewrite calculateRiskScore_spec, borderline_log_odds. unfold logistic.
  pose proof tanh_15_bounds as H15. pose proof tanh_7_bounds as H7.
  set (x := 0.391 + 0.28 * tanh 1.5 - 0.24 * tanh 7).
  assert (Hx : 4043 / 10000 <= x <= 4047 / 10000) by (unfold x; lra).
  assert (Hlo : 1497 / 1000 <= exp x).
  { apply Rle_trans with (exp (4043 / 10000));
      [apply exp_4043_lower | apply exp_le_mono; lra]. }
  assert (Hhi : exp x <= 14995 / 10000).
  { apply Rle_trans with (exp (4047 / 10000));
      [apply exp_le_mono; lra | apply exp_4047_upper]. }
  rewrite exp_Ropp.
  assert (HI : / (14995 / 10000) <= / exp x <= / (1497 / 1000)).
  { split; apply Rinv_le_contravar; lra. }
  replace (/ (14995 / 10000)) with (10000 / 14995) in HI by (field; lra).
  replace (/ (1497 / 1000)) with (1000 / 1497) in HI by (field; lra).
  set (I := / exp x) in *.
  assert (HIlo : 10000 / 14995 <= I) by lra.
  assert (HIhi : I <= 0.66805).
  { apply Rle_trans with (1000 / 1497); [lra | apply div_le; lra]. }
  assert (HIpos : 0.666 <= 10000 / 14995) by (apply le_div; lra).
  split.
  - apply le_div; lra.
  - apply Rle_lt_trans with (1 / (1 + 10000 / 14995)).
    + apply div_le; [lra |].
      replace (1 / (1 + 10000 / 14995) * (1 + I))
        with ((1 + I) / (1 + 10000 / 14995)) by (field; lra).
      apply le_div; lra.
    + replace (1 / (1 + 10000 / 14995)) with (14995 / 24995)
        by (field; lra).
      apply Rmult_lt_reg_r with 24995; [lra |].
      replace (14995 / 24995 * 24995) with 14995 by (field; lra). lra.
Qed.

(** ** Risk tiers *)

Lemma categorizeRisk_tiers (s : R) :
  (0.8 <= s -> categorizeRisk s = CRITICAL)
  /\ (0.6 <= s < 0.8 -> categorizeRisk s = HIGH)
  /\ (0.3 <= s < 0.6 -> categorizeRisk s = MEDIUM)
  /\ (s < 0.3 -> categorizeRisk s = LOW).
Proof.
  unfold categorizeRisk.
  destruct (Rle_dec 0.8 s); destruct (Rle_dec 0.6 s);
    destruct (Rle_dec 0.3 s);
    repeat split; intros; try reflexivity; exfalso; lra.
Qed.

Lemma categorizeRisk_monotone (s1 s2 : R) :
  s1 <= s2 ->
  (level_rank (categorizeRisk s1) <= level_rank (categorizeRisk s2))%nat.
Proof.
  intros H. unfold categorizeRisk.
  destruct (Rle_dec 0.8 s1); destruct (Rle_dec 0.6 s1);
    destruct (Rle_dec 0.3 s1); destruct (Rle_dec 0.8 s2);
    destruct (Rle_dec 0.6 s2); destruct (Rle_dec 0.3 s2);
    cbn [level_rank]; try lia; exfalso; lra.
Qed.

(** A threshold that is a whole number of thousandths separates a value and
    its rounding alike, unless the rounding falls on the threshold. *)
Lemma threshold_agree (m k : Z) (raw : R) :
  - (1 / 2000) < IZR k / 1000 - raw <= 1 / 2000 ->
  k <> m ->
  (IZR m / 1000 <= raw <-> IZR m / 1000 <= IZR k / 1000).
Proof.
  intros Hr Hne.
  assert (Hcases : (k <= m - 1 \/ m + 1 <= k)%Z) by lia.
  destruct Hcases as [H | H]; apply IZR_le in H;
    [rewrite minus_IZR in H | rewrite plus_IZR in H]; split; lra.
Qed.

Lemma categorizeRisk_rounded (raw r : R) :
  rounded3 raw r ->
  categorizeRisk raw = categorizeRisk r \/ r = 0.3 \/ r = 0.6 \/ r = 0.8.
Proof.
  intros [[k Hk] Hnear]. subst r.
  destruct (Z.eq_dec k 300) as [-> | H3]; [right; left; lra |].
  destruct (Z.eq_dec k 600) as [-> | H6]; [right; right; left; lra |].
  destruct (Z.eq_dec k 800) as [-> | H8]; [right; right; right; lra |].
  left.
  pose proof (threshold_agree 300 k raw Hnear H3) as A3.
  pose proof (threshold_agree 600 k raw Hnear H6) as A6.
  pose proof (threshold_agree 800 k raw Hnear H8) as A8.
  unfold categorizeRisk.
  destruct (Rle_dec 0.8 raw) as [R8 | R8];
    destruct (Rle_dec 0.8 (IZR k / 1000)) as [K8 | K8];
    try (exfalso; apply K8; lra); try (exfalso; apply R8; lra);
    [reflexivity |].
  destruct (Rle_dec 0.6 raw) as [R6 | R6];
    destruct (Rle_dec 0.6 (IZR k / 1000)) as [K6 | K6];
    try (exfalso; apply K6; lra); try (exfalso; apply R6; lra);
    [reflexivity |].
  destruct (Rle_dec 0.3 raw) as [R3 | R3];
    destruct (Rle_dec 0.3 (IZR k / 1000)) as [K3 | K3];
    try (exfalso; apply K3; lra); try (exfalso; apply R3; lra);
    reflexivity.
Qed.

(** C2, as it holds.  The risk level is the step function (CRITICAL from
    0.8, HIGH from 0.6, MEDIUM from 0.3, LOW below; monotone, boundaries
    belonging to the upper tier) of the score before it is rounded; the
    returned [risk_score] is that score rounded to three decimals, so the
    level is the step function of the returned score too unless the returned
    score is exactly 0.3, 0.6 or 0.8. *)
Theorem risk_level_of_unrounded_score :
  forall (now : Z) (rid : string) (employee : Employee)
         (performanceHistory : list PerformanceRecord)
         (engagementHistory : list EngagementRecord)
         (departmentData : option DepartmentData) (s s' : R),
    let raw :=
      calculateRiskScore
        (extractFeatures now employee performanceHistory engagementHistory
           departmentData) in
    let p :=
      predictChurn now rid employee performanceHistory engagementHistory
        departmentData in
    risk_level p = categorizeRisk raw
    /\ rounded3 raw (risk_score p)
    /\ (risk_level p = categorizeRisk (risk_score p)
        \/ risk_score p = 0.3 \/ risk_score p = 0.6 \/ risk_score p = 0.8)
    /\ (s <= s' ->
        (level_rank (categorizeRisk s) <= level_rank (categorizeRisk s'))%nat)
    /\ (0.8 <= s -> categorizeRisk s = CRITICAL)
    /\ (0.6 <= s < 0.8 -> categorizeRisk s = HIGH)
    /\ (0.3 <= s < 0.6 -> categorizeRisk s = MEDIUM)
    /\ (s < 0.3 -> categorizeRisk s = LOW).
Proof.
  intros now rid employee ph eh dd s s' raw p.
  assert (Hround : rounded3 raw (risk_score p)).
  { unfold p, predictChurn. cbn [risk_score]. apply round3_rounded3. }
  split; [reflexivity |].
  split; [exact Hround |].
  split.
  { change (risk_level p) with (categorizeRisk raw).
    apply categorizeRisk_rounded. exact Hround. }
  split; [apply categorizeRisk_monotone |].
  apply categorizeRisk_tiers.
Qed.

Lemma risk_level_of_unrounded_score_witness :
  (level_rank (categorizeRisk 0.79999) <= level_rank (categorizeRisk 0.8))%nat
  /\ categorizeRisk 0.8 = CRITICAL
  /\ categorizeRisk 0.79999 = HIGH
  /\ categorizeRisk 0.45 = MEDIUM
  /\ categorizeRisk 0.1 = LOW.
Proof.
  pose proof (risk_level_of_unrounded_score steady_now "p1" steady_employee
                [] [] None 0.79999 0.8) as (_ & _ & _ & Hmono & _).
  pose proof (risk_level_of_unrounded_score steady_now "p1" steady_employee
                [] [] None 0.8 0.8) as (_ & _ & _ & _ & Hcrit & _).
  pose proof (risk_level_of_unrounded_score steady_now "p1" steady_employee
                [] [] None 0.79999 0.8) as (_ & _ & _ & _ & _ & Hhigh & _).
  pose proof (risk_level_of_unrounded_score steady_now "p1" steady_employee
                [] [] None 0.45 0.8) as (_ & _ & _ & _ & _ & _ & Hmed & _).
  pose proof (risk_level_of_unrounded_score steady_now "p1" steady_employee
                [] [] None 0.1 0.8) as (_ & _ & _ & _ & _ & _ & _ & Hlow).
  split; [apply Hmono; lra |].
  split; [apply Hcrit; lra |].
  split; [apply Hhigh; lra |].
  split; [apply Hmed; lra | apply Hlow; lra].
Defined.

(** C2, as the specification words it, fails.  The borderline employee's
    prediction carries the score 0.6, which the stated boundaries place in
    HIGH, with the level MEDIUM: the level was taken from the unrounded
    score, a little below 0.6. *)
Lemma risk_level_differs_at_rounded_boundary :
  let p :=
    predictChurn borderline_now "p2" borderline_employee [] [] None in
  risk_score p = 0.6
  /\ risk_level p = MEDIUM
  /\ categorizeRisk (risk_score p) = HIGH
  /\ risk_level p <> categorizeRisk (risk_score p).
Proof.
  intros p. pose proof borderline_raw_score as Hraw.
  assert (Hscore : risk_score p = 0.6).
  { unfold p, predictChurn. cbn [risk_score].
    set (raw := calculateRiskScore _) in *.
    unfold JS.Math_round.
    rewrite <- (Int_part_spec (raw * 1000 + 1 / 2) 600) by lra. lra. }
  assert (Hlevel : risk_level p = MEDIUM).
  { unfold p, predictChurn. cbn [risk_level].
    apply (categorizeRisk_tiers _). lra. }
  assert (Hstep : categorizeRisk (risk_score p) = HIGH).
  { rewrite Hscore. apply (categorizeRisk_tiers 0.6). lra. }
  split; [exact Hscore |]. split; [exact Hlevel |].
  split; [exact Hstep |]. rewrite Hlevel, Hstep. discriminate.
Qed.


(** * Further properties of the code *)

(** ** More on the trend estimator *)

Lemma tanh_gt_m1 (z : R) : -1 < tanh z.
Proof.
  rewrite tanh_exp. pose proof (exp_pos (2 * z)) as HE.
  apply Rmult_lt_reg_r with (exp (2 * z) + 1); [lra |].
  replace ((exp (2 * z) - 1) / (exp (2 * z) + 1) * (exp (2 * z) + 1))
    with (exp (2 * z) - 1) by (field; lra).
  lra.
Qed.

(** The trend always lies in the interval [-1, 1], and so do the two trend
    features of every feature vector [extractFeatures] builds. *)
Theorem trend_bounded :
  (forall data : list TrendPoint, -1 <= calculateTrend data <= 1)
  /\ (forall (now : Z) (employee : Employee)
             (performanceHistory : list PerformanceRecord)
             (engagementHistory : list EngagementRecord)
             (departmentData : option DepartmentData),
         let f :=
           extractFeatures now employee performanceHistory
             engagementHistory departmentData in
         -1 <= performance_trend f <= 1 /\ -1 <= engagement_trend f <= 1).
Proof.
  assert (H : forall data : list TrendPoint, -1 <= calculateTrend data <= 1).
  { intros data. unfold calculateTrend.
    destruct (length data <? 2)%nat; [lra |]. cbv zeta.
    split; apply Rlt_le; [apply tanh_gt_m1 | apply tanh_lt_1]. }
  split; [exact H |].
  intros now employee ph eh dd f. subst f. unfold extractFeatures.
  cbn [performance_trend engagement_trend]. split; apply H.
Qed.

Lemma slope_num_values {A : Type} (v : A -> R) (l : list A) :
  forall k,
    slope_num (fun x _ => v x) k l = slope_num (fun y _ => y) k (map v l).
Proof.
  assert (Hi : forall (g : R -> nat -> R) k,
             isum (fun x i => g (v x) i) k l = isum g k (map v l)).
  { intros g. induction l as [| x l IH]; intros k; cbn [isum map];
      [reflexivity |].
    rewrite IH. reflexivity. }
  intros k. unfold slope_num. rewrite length_map.
  rewrite <- (Hi (fun y i => INR i * y)), <- (Hi (fun y _ => y)),
    <- (Hi (fun _ i => INR i)).
  reflexivity.
Qed.

Lemma slope_den_length {A B : Type} (l : list A) (m : list B) :
  length l = length m ->
  forall k,
    slope_num (fun _ i => INR i) k l = slope_num (fun _ i => INR i) k m.
Proof.
  assert (Hi : forall (g : nat -> R) (l : list A) (m : list B),
             length l = length m ->
             forall k, isum (fun _ i => g i) k l = isum (fun _ i => g i) k m).
  { intros g l0. induction l0 as [| x l0 IH]; intros [| y m0] Hlen k;
      cbn [isum]; try discriminate; [reflexivity |].
    rewrite (IH m0) by (cbn in Hlen; lia). reflexivity. }
  intros Hlen k. unfold slope_num.
  rewrite (Hi (fun i => INR i * INR i) l m Hlen),
    (Hi (fun i => INR i) l m Hlen), Hlen.
  reflexivity.
Qed.

Lemma calculateTrend_of_sorted (data data' : list TrendPoint) :
  JS.sort (fun a b => IZR (date a) - IZR (date b)) data
  = JS.sort (fun a b => IZR (date a) - IZR (date b)) data' ->
  calculateTrend data = calculateTrend data'.
Proof.
  intros Hs.
  assert (Hlen : length data = length data').
  { rewrite <- (sort_length (fun a b => IZR (date a) - IZR (date b)) data),
      Hs.
    apply sort_length. }
  unfold calculateTrend. rewrite Hlen, Hs. reflexivity.
Qed.

(** The trend is a function of the values in date order alone: two
    histories whose values, taken in date order, are the same sequence have
    the same trend, however their dates are spaced. *)
Theorem trend_ignores_spacing :
  forall data data' : list TrendPoint,
    map value (JS.sort (fun a b => IZR (date a) - IZR (date b)) data)
    = map value (JS.sort (fun a b => IZR (date a) - IZR (date b)) data') ->
    calculateTrend data = calculateTrend data'.
Proof.
  intros data data' Hv.
  set (s := JS.sort (fun a b => IZR (date a) - IZR (date b)) data) in *.
  set (s' := JS.sort (fun a b => IZR (date a) - IZR (date b)) data') in *.
  assert (Hls : length s = length data) by apply sort_length.
  assert (Hls' : length s' = length data') by apply sort_length.
  assert (Hlen : length s = length s').
  { rewrite <- (length_map value s), Hv, length_map. reflexivity. }
  destruct (Nat.lt_ge_cases (length data) 2) as [Hlt | Hge].
  - rewrite !calculateTrend_short; [reflexivity | lia | lia].
  - rewrite (calculateTrend_slope data) by exact Hge.
    rewrite (calculateTrend_slope data') by lia.
    cbv zeta. fold s s'.
    rewrite (slope_num_values value s), (slope_num_values value s'), Hv.
    rewrite (slope_den_length s s' Hlen). reflexivity.
Qed.

Lemma declining_reviews_close_in_order :
  JS.sort (fun a b => IZR (date a) - IZR (date b)) declining_reviews_close
  = declining_reviews_close.
Proof.
  apply (sort_sorted_id _ (fun p => IZR (date p)) by_date_key).
  unfold declining_reviews_close.
  repeat constructor; cbn [date]; lra.
Qed.

Lemma trend_ignores_spacing_witness :
  calculateTrend declining_reviews = calculateTrend declining_reviews_close.
Proof.
  apply trend_ignores_spacing.
  rewrite declining_reviews_in_order, declining_reviews_close_in_order.
  reflexivity.
Defined.

(** With exactly two points the trend is the hyperbolic tangent of the
    later value minus the earlier one; on equal dates the point given first
    counts as the earlier. *)
Theorem two_point_trend :
  forall a b : TrendPoint,
    calculateTrend [a; b]
    = if (date a <=? date b)%Z then tanh (value b - value a)
      else tanh (value a - value b).
Proof.
  intros a b.
  rewrite (calculateTrend_slope [a; b]) by (cbn; lia). cbv zeta.
  cbn [JS.sort fold_right JS.insert].
  destruct (Z.leb_spec (date a) (date b)) as [Hle | Hlt];
    [apply IZR_le in Hle | apply IZR_lt in Hlt];
    destruct (Rle_dec (IZR (date a) - IZR (date b)) 0) as [H | H];
    try (exfalso; lra);
    unfold slope_num; cbn [isum length INR]; f_equal; field.
Qed.

(** Two lists in strictly increasing key order with the same elements are
    the same list. *)
Lemma strictly_sorted_unique {A : Type} (key : A -> R) (l : list A) :
  forall l',
    Permutation l l' ->
    StronglySorted (fun a b => key a < key b) l ->
    StronglySorted (fun a b => key a < key b) l' ->
    l = l'.
Proof.
  induction l as [| x l IH]; intros l' Hperm Hs Hs'.
  - apply Permutation_nil in Hperm. symmetry. exact Hperm.
  - destruct l' as [| x' l'].
    { apply Permutation_sym, Permutation_nil in Hperm. discriminate. }
    apply StronglySorted_inv in Hs. destruct Hs as [Hs Hall].
    apply StronglySorted_inv in Hs'. destruct Hs' as [Hs' Hall'].
    rewrite Forall_forall in Hall, Hall'.
    assert (Hx : In x (x' :: l'))
      by (apply (Permutation_in x Hperm); left; reflexivity).
    assert (Hx' : In x' (x :: l))
      by (apply (Permutation_in x' (Permutation_sym Hperm)); left;
          reflexivity).
    assert (Heq : x = x').
    { destruct Hx as [Hx | Hx]; [symmetry; exact Hx |].
      destruct Hx' as [Hx' | Hx']; [exact Hx' |].
      pose proof (Hall x' Hx'). pose proof (Hall' x Hx). lra. }
    subst x'. f_equal. apply IH; [| exact Hs | exact Hs'].
    apply Permutation_cons_inv with x. exact Hperm.
Qed.

Lemma sorted_distinct_strict {A : Type} (key : A -> R) (l : list A) :
  StronglySorted (key_le key) l -> NoDup (map key l) ->
  StronglySorted (fun a b => key a < key b) l.
Proof.
  induction 1 as [| x l Hs IH Hall]; intros Hnd; constructor.
  - apply IH. cbn [map] in Hnd. apply NoDup_cons_iff in Hnd. tauto.
  - cbn [map] in Hnd. apply NoDup_cons_iff in Hnd. destruct Hnd as [Hnin _].
    rewrite Forall_forall in *. intros y Hy. specialize (Hall y Hy).
    unfold key_le in Hall.
    destruct Hall as [Hlt | Heq]; [exact Hlt |].
    exfalso. apply Hnin. rewrite Heq. apply in_map. exact Hy.
Qed.

Lemma sort_distinct_perm {A : Type} (cmp : A -> A -> R) (key : A -> R)
    (l l' : list A) :
  (forall x y, cmp x y <= 0 <-> key x <= key y) ->
  Permutation l l' -> NoDup (map key l) ->
  JS.sort cmp l = JS.sort cmp l'.
Proof.
  intros Hcmp Hperm Hnd.
  assert (Hnd' : NoDup (map key l')).
  { apply (Permutation_NoDup (Permutation_map key Hperm)). exact Hnd. }
  apply (strictly_sorted_unique key).
  - rewrite <- (sort_perm cmp l), <- (sort_perm cmp l'). exact Hperm.
  - apply sorted_distinct_strict; [apply sort_strongly_sorted; exact Hcmp |].
    apply (Permutation_NoDup (Permutation_map key (sort_perm cmp l))).
    exact Hnd.
  - apply sorted_distinct_strict; [apply sort_strongly_sorted; exact Hcmp |].
    apply (Permutation_NoDup (Permutation_map key (sort_perm cmp l'))).
    exact Hnd'.
Qed.

(** When no two points share a date, the order in which the points are
    given does not matter. *)
Theorem trend_order_independent :
  forall data data' : list TrendPoint,
    Permutation data data' ->
    NoDup (map date data) ->
    calculateTrend data = calculateTrend data'.
Proof.
  intros data data' Hperm Hnd.
  apply calculateTrend_of_sorted.
  apply (sort_distinct_perm _ (fun p => IZR (date p))); auto using by_date_key.
  rewrite <- (map_map date IZR).
  apply Finite.Injective_map_NoDup; [| exact Hnd].
  intros x y Hxy. apply eq_IZR. exact Hxy.
Qed.

Lemma trend_order_independent_witness :
  calculateTrend declining_reviews = calculateTrend (rev declining_reviews).
Proof.
  apply trend_order_independent.
  - apply Permutation_rev.
  - unfold declining_reviews. cbn [map date].
    repeat constructor; cbn [In]; intros H;
      repeat (destruct H as [H | H]; [discriminate H |]); exact H.
Defined.

(** ** The score as a function of the features *)

Lemma tanh_le_mono (x y : R) : x <= y -> tanh x <= tanh y.
Proof.
  intros Hxy. rewrite (tanh_exp y).
  apply (tanh_bounds x (exp (2 * x)) (exp (2 * y))); [apply exp_pos |].
  split; [apply Rle_refl | apply exp_le_mono; lra].
Qed.

Lemma logistic_le_mono (x y : R) : x <= y -> logistic x <= logistic y.
Proof.
  intros Hxy. unfold logistic.
  pose proof (exp_pos (- x)). pose proof (exp_pos (- y)).
  assert (exp (- y) <= exp (- x)) by (apply exp_le_mono; lra).
  apply div_le; [lra |].
  replace (1 / (1 + exp (- y)) * (1 + exp (- x)))
    with ((1 + exp (- x)) / (1 + exp (- y))) by (field; lra).
  apply le_div; lra.
Qed.

Lemma spec_log_odds_mono (f g : FeatureVector) :
  at_least_as_exposed f g -> spec_log_odds f <= spec_log_odds g.
Proof.
  intros (H1 & H2 & H3 & H4 & H5 & H6 & H7 & H8 & H9 & H10).
  unfold spec_log_odds.
  assert (T1 : tanh (tenure_months g / 60) <= tanh (tenure_months f / 60))
    by (apply tanh_le_mono; lra).
  pose proof (tanh_le_mono _ _ H3) as T3.
  pose proof (tanh_le_mono _ _ H5) as T5.
  pose proof (tanh_le_mono _ _ H7) as T7.
  assert (T8 : tanh (department_turnover_rate f * 10)
               <= tanh (department_turnover_rate g * 10))
    by (apply tanh_le_mono; lra).
  assert (T9 : tanh (promotion_gap_months f / 36)
               <= tanh (promotion_gap_months g / 36))
    by (apply tanh_le_mono; lra).
  pose proof (tanh_le_mono _ _ H10) as T10.
  lra.
Qed.

(** Lowering a protective feature (tenure, rating, engagement, their
    trends, salary percentile, work-life balance) or raising a
    risk-increasing one (manager changes, department turnover, promotion
    gap) never lowers the score, nor the tier it falls in. *)
Theorem score_monotone_in_features :
  forall f g : FeatureVector,
    at_least_as_exposed f g ->
    calculateRiskScore f <= calculateRiskScore g
    /\ (level_rank (categorizeRisk (calculateRiskScore f))
        <= level_rank (categorizeRisk (calculateRiskScore g)))%nat.
Proof.
  intros f g H.
  assert (Hs : calculateRiskScore f <= calculateRiskScore g).
  { rewrite !calculateRiskScore_spec.
    apply logistic_le_mono, spec_log_odds_mono. exact H. }
  split; [exact Hs | apply categorizeRisk_monotone; exact Hs].
Qed.

Lemma score_monotone_in_features_witness :
  calculateRiskScore
    {| tenure_months := 40; avg_performance_rating := 4;
       performance_trend := 0; avg_engagement_score := 8;
       engagement_trend := 0; salary_percentile := 0.6;
       manager_changes := 0; department_turnover_rate := 0.1;
       promotion_gap_months := 16; work_life_balance_score := 8 |}
  <= calculateRiskScore
       {| tenure_months := 40; avg_performance_rating := 2.5;
          performance_trend := 0; avg_engagement_score := 5;
          engagement_trend := 0; salary_percentile := 0.6;
          manager_changes := 0; department_turnover_rate := 0.3;
          promotion_gap_months := 16; work_life_balance_score := 8 |}.
Proof.
  apply score_monotone_in_features.
  unfold at_least_as_exposed.
  cbn [tenure_months avg_performance_rating performance_trend
       avg_engagement_score engagement_trend salary_percentile
       manager_changes department_turnover_rate promotion_gap_months
       work_life_balance_score].
  repeat split; lra.
Defined.

(** ** More on the risk factors *)

Lemma In_push_if_iff {P : Prop} (c : {P} + {~ P}) (s x : string)
    (l : list string) :
  In x (push_if c s l) <-> In x l \/ (x = s /\ P).
Proof.
  unfold push_if. destruct c as [HP | HN].
  - rewrite in_app_iff. cbn [In]. intuition (subst; auto).
  - tauto.
Qed.

Lemma identifyRiskFactors_In (f : FeatureVector) (e : Employee)
    (x : string) :
  In x (identifyRiskFactors f e)
  <-> rule_holds f x
      \/ (x = "Multiple minor risk indicators"%string /\ no_rule_fires f).
Proof.
  unfold identifyRiskFactors. cbv zeta.
  match goal with
  | |- context [(length ?l =? 0)%nat] => set (L := l)
  end.
  assert (HL : forall y, In y L <-> rule_holds f y).
  { intros y. subst L. rewrite !In_push_if_iff. unfold rule_holds.
    cbn [In]. tauto. }
  assert (Hquiet : no_rule_fires f -> forall y, ~ rule_holds f y).
  { intros (H1 & H2 & H3 & H4 & H5 & H6 & H7 & H8 & H9 & H10) y Hy.
    unfold rule_holds in Hy.
    repeat (destruct Hy as [[_ Hy] | Hy]; [lra |]).
    destruct Hy as [_ Hy]. lra. }
  destruct L as [| y L'] eqn:EL; cbn [length Nat.eqb app].
  - assert (Hnone : forall y, ~ rule_holds f y).
    { intros y Hy. apply HL in Hy. exact Hy. }
    assert (Hq : no_rule_fires f).
    { unfold no_rule_fires.
      repeat split; apply Rnot_lt_le; intros Hlt;
        match goal with
        | _ : avg_performance_rating f < _ |- _ =>
            apply (Hnone "Below average performance rating"%string)
        | _ : performance_trend f < _ |- _ =>
            apply (Hnone "Declining performance trend"%string)
        | _ : avg_engagement_score f < _ |- _ =>
            apply (Hnone "Low engagement score"%string)
        | _ : engagement_trend f < _ |- _ =>
            apply (Hnone "Declining engagement trend"%string)
        | _ : work_life_balance_score f < _ |- _ =>
            apply (Hnone "Poor work-life balance"%string)
        | _ : salary_percentile f < _ |- _ =>
            apply (Hnone "Below market salary"%string)
        | _ : _ < manager_changes f |- _ =>
            apply (Hnone "Frequent manager changes"%string)
        | _ : _ < department_turnover_rate f |- _ =>
            apply (Hnone "High department turnover"%string)
        | _ : _ < promotion_gap_months f |- _ =>
            apply (Hnone "Long time since last promotion"%string)
        | _ : tenure_months f < _ |- _ =>
            apply (Hnone "Recent hire adjustment period"%string)
        end;
        unfold rule_holds; unfold Rgt; tauto. }
    cbn [In]. split.
    + intros [<- | []]. right. split; [reflexivity | exact Hq].
    + intros [Hr | [-> _]]; [exfalso; exact (Hnone x Hr) | left; reflexivity].
  - rewrite HL. split; [tauto |].
    intros [Hr | [_ Hq]]; [exact Hr |].
    exfalso. apply (Hquiet Hq y). apply HL. left. reflexivity.
Qed.

Ltac rule_string :=
  unfold rule_holds, Rgt;
  intuition (try discriminate; try congruence; try lra).

(** Each factor string is on the list exactly when its own rule holds on the
    raw features, and the fallback is on it exactly when none does. *)
Theorem risk_factor_iff_rule :
  forall (f : FeatureVector) (e : Employee),
    let factors := identifyRiskFactors f e in
    (In "Below average performance rating"%string factors
     <-> avg_performance_rating f < 3.0)
    /\ (In "Declining performance trend"%string factors
        <-> performance_trend f < -0.3)
    /\ (In "Low engagement score"%string factors
        <-> avg_engagement_score f < 6.0)
    /\ (In "Declining engagement trend"%string factors
        <-> engagement_trend f < -0.3)
    /\ (In "Poor work-life balance"%string factors
        <-> work_life_balance_score f < 6.0)
    /\ (In "Below market salary"%string factors
        <-> salary_percentile f < 0.3)
    /\ (In "Frequent manager changes"%string factors
        <-> manager_changes f > 2)
    /\ (In "High department turnover"%string factors
        <-> department_turnover_rate f > 0.25)
    /\ (In "Long time since last promotion"%string factors
        <-> promotion_gap_months f > 36)
    /\ (In "Recent hire adjustment period"%string factors
        <-> tenure_months f < 6)
    /\ (In "Multiple minor risk indicators"%string factors
        <-> no_rule_fires f).
Proof.
  intros f e factors. subst factors.
  repeat match goal with |- _ /\ _ => split end;
    (split; intros H;
     [apply identifyRiskFactors_In in H; revert H; rule_string
     | apply identifyRiskFactors_In; unfold rule_holds, Rgt; tauto]).
Qed.

Lemma subseq_nil_l {A : Type} (m : list A) : subseq [] m.
Proof. induction m; constructor; assumption. Qed.

Lemma subseq_refl {A : Type} (l : list A) : subseq l l.
Proof. induction l; constructor; assumption. Qed.

Lemma subseq_app {A : Type} (l1 m1 l2 m2 : list A) :
  subseq l1 m1 -> subseq l2 m2 -> subseq (l1 ++ l2) (m1 ++ m2).
Proof.
  induction 1; intros H2; cbn [app];
    [exact H2 | apply subseq_skip; auto | apply subseq_keep; auto].
Qed.


Lemma subseq_length {A : Type} (l m : list A) :
  subseq l m -> (length l <= length m)%nat.
Proof. induction 1; cbn [length]; lia. Qed.


Lemma push_if_subseq {P Q : Prop} (c : {P} + {Q}) (s : string)
    (l m : list string) :
  subseq l m -> subseq (push_if c s l) (m ++ [s]).
Proof.
  intros H. unfold push_if. destruct c.
  - apply subseq_app; [exact H | apply subseq_refl].
  - rewrite <- (app_nil_r l). apply subseq_app; [exact H |].
    apply subseq_nil_l.
Qed.


Lemma identifyRiskFactors_shape (f : FeatureVector) (e : Employee) :
  identifyRiskFactors f e = ["Multiple minor risk indicators"%string]
  \/ subseq (identifyRiskFactors f e) rule_factors.
Proof.
  unfold identifyRiskFactors. cbv zeta.
  match goal with
  | |- context [(length ?l =? 0)%nat] => set (L := l)
  end.
  assert (HL : subseq L rule_factors).
  { subst L.
    change rule_factors
      with (((((((((([]
       ++ ["Below average performance rating"%string])
       ++ ["Declining performance trend"%string])
       ++ ["Low engagement score"%string])
       ++ ["Declining engagement trend"%string])
       ++ ["Poor work-life balance"%string])
       ++ ["Below market salary"%string])
       ++ ["Frequent manager changes"%string])
       ++ ["High department turnover"%string])
       ++ ["Long time since last promotion"%string])
       ++ ["Recent hire adjustment period"%string])%list.
    repeat apply push_if_subseq. constructor. }
  destruct L as [| y L']; cbn [length Nat.eqb app];
    [left; reflexivity | right; exact HL].
Qed.

Lemma identifyRiskFactors_length (f : FeatureVector) (e : Employee) :
  (1 <= length (identifyRiskFactors f e) <= 10)%nat.
Proof.
  pose proof (identifyRiskFactors_nonempty f e) as Hne.
  destruct (identifyRiskFactors_shape f e) as [-> | Hs];
    [cbn [length]; lia |].
  pose proof (subseq_length _ _ Hs) as Hlen.
  change (length rule_factors) with 10%nat in Hlen.
  destruct (identifyRiskFactors f e); [contradiction | cbn [length] in *; lia].
Qed.


Ltac factor_iff :=
  let H := fresh "H" in
  split; intros H;
  [ apply identifyRiskFactors_In in H; revert H; rule_string
  | apply identifyRiskFactors_In; unfold rule_holds, Rgt; tauto ].

(** No prediction ever lists "Frequent manager changes": the feature behind
    it is always 0. *)
Theorem manager_changes_never_flagged :
  forall (now : Z) (rid : string) (employee : Employee)
         (performanceHistory : list PerformanceRecord)
         (engagementHistory : list EngagementRecord)
         (departmentData : option DepartmentData),
    ~ In "Frequent manager changes"%string
        (risk_factors
           (predictChurn now rid employee performanceHistory
              engagementHistory departmentData)).
Proof.
  intros now rid employee ph eh dd. unfold predictChurn.
  cbn [risk_factors].
  set (f := extractFeatures now employee ph eh dd).
  assert (Hr : In "Frequent manager changes"%string
                 (identifyRiskFactors f employee)
               <-> manager_changes f > 2) by factor_iff.
  rewrite Hr. change (manager_changes f) with 0. lra.
Qed.

Lemma ms_per_month_pos : (0 < ms_per_month)%Z.
Proof. reflexivity. Qed.

Lemma div_lt_iff (d m q : Z) :
  (0 < m)%Z -> (d / m < q <-> d < q * m)%Z.
Proof.
  intros Hm. split; intros H.
  - destruct (Z.lt_ge_cases d (q * m)) as [Hlt | Hge]; [exact Hlt |].
    assert (q <= d / m)%Z by (apply Z.div_le_lower_bound; lia). lia.
  - apply Z.div_lt_upper_bound; lia.
Qed.

(** The two factors driven by tenure: "Recent hire adjustment period" is
    listed exactly when fewer than 6 months of 30 days lie between the hire
    date and the prediction (a hire date in the future included), and "Long
    time since last promotion" exactly when at least 61 such months do; a
    prediction never lists both. *)
Theorem tenure_factors :
  forall (now : Z) (rid : string) (employee : Employee)
         (performanceHistory : list PerformanceRecord)
         (engagementHistory : list EngagementRecord)
         (departmentData : option DepartmentData),
    let factors :=
      risk_factors
        (predictChurn now rid employee performanceHistory engagementHistory
           departmentData) in
    (In "Recent hire adjustment period"%string factors
     <-> (now - hire_date employee < 6 * ms_per_month)%Z)
    /\ (In "Long time since last promotion"%string factors
        <-> (61 * ms_per_month <= now - hire_date employee)%Z)
    /\ ~ (In "Recent hire adjustment period"%string factors
          /\ In "Long time since last promotion"%string factors).
Proof.
  intros now rid employee ph eh dd factors. subst factors.
  unfold predictChurn. cbn [risk_factors].
  set (f := extractFeatures now employee ph eh dd).
  assert (Hr : In "Recent hire adjustment period"%string
                 (identifyRiskFactors f employee)
               <-> tenure_months f < 6) by factor_iff.
  assert (Hp : In "Long time since last promotion"%string
                 (identifyRiskFactors f employee)
               <-> promotion_gap_months f > 36) by factor_iff.
  set (t := ((now - hire_date employee) / ms_per_month)%Z).
  change (tenure_months f) with (IZR t) in Hr.
  change (promotion_gap_months f) with (Rmax 0 (IZR t - 24)) in Hp.
  assert (Hr' : IZR t < 6 <-> (now - hire_date employee < 6 * ms_per_month)%Z).
  { rewrite <- (div_lt_iff _ _ 6 ms_per_month_pos). fold t.
    split; [apply lt_IZR | apply IZR_lt]. }
  assert (Hp' : Rmax 0 (IZR t - 24) > 36
                <-> (61 * ms_per_month <= now - hire_date employee)%Z).
  { assert (Hd : (t < 61 <-> now - hire_date employee < 61 * ms_per_month)%Z)
      by (unfold t; apply div_lt_iff, ms_per_month_pos).
    unfold Rmax. split.
    - intros H.
      assert (H60 : 60 < IZR t) by (destruct (Rle_dec 0 (IZR t - 24)); lra).
      apply lt_IZR in H60. lia.
    - intros H. assert (Ht : (61 <= t)%Z) by lia.
      apply IZR_le in Ht. destruct (Rle_dec 0 (IZR t - 24)); lra. }
  rewrite Hr, Hp, Hr', Hp'.
  pose proof ms_per_month_pos.
  repeat split; try tauto. lia.
Qed.

Lemma filter_two_pass {A : Type} (p : A -> bool) (a b : A)
    (l1 l2 l3 : list A) :
  p a = true -> p b = true ->
  (2 <= length (filter p (l1 ++ a :: l2 ++ b :: l3)))%nat.
Proof.
  intros Ha Hb. rewrite filter_app. cbn [filter]. rewrite Ha, filter_app.
  cbn [filter]. rewrite Hb. rewrite length_app. cbn [length].
  rewrite length_app. cbn [length]. lia.
Qed.

Lemma extracted_salary_percentile_nonzero (now : Z) (employee : Employee)
    (ph : list PerformanceRecord) (eh : list EngagementRecord)
    (dd : option DepartmentData) :
  salary_percentile (extractFeatures now employee ph eh dd) <> 0.
Proof.
  unfold extractFeatures. cbn [salary_percentile].
  destruct (salary employee) as [s |]; [| lra].
  destruct (Req_dec_T s 0) as [| Hs]; [lra |].
  unfold Rmin. destruct (Rle_dec (s / 120000) 1.0); [| lra].
  intros H. apply Hs.
  replace s with (s / 120000 * 120000) by (field; lra). rewrite H. lra.
Qed.

Lemma extracted_turnover_nonzero (now : Z) (employee : Employee)
    (ph : list PerformanceRecord) (eh : list EngagementRecord)
    (dd : option DepartmentData) :
  department_turnover_rate (extractFeatures now employee ph eh dd) <> 0.
Proof.
  rewrite departmentTurnoverRate_cases.
  destruct dd as [d |]; [| lra].
  destruct (Req_dec_T (turnover_rate d) 0); [lra | assumption].
Qed.

(** The confidence of a prediction is at least 0.74: the salary percentile
    and the department turnover rate that [extractFeatures] produces are
    never 0, so at least two of the ten features count as present. *)
Theorem confidence_at_least_074 :
  forall (now : Z) (rid : string) (employee : Employee)
         (performanceHistory : list PerformanceRecord)
         (engagementHistory : list EngagementRecord)
         (departmentData : option DepartmentData),
    let f :=
      extractFeatures now employee performanceHistory engagementHistory
        departmentData in
    salary_percentile f <> 0
    /\ department_turnover_rate f <> 0
    /\ 0.74 <= confidence
                 (predictChurn now rid employee performanceHistory
                    engagementHistory departmentData).
Proof.
  intros now rid employee ph eh dd f.
  pose proof (extracted_salary_percentile_nonzero now employee ph eh dd)
    as Hsal.
  pose proof (extracted_turnover_nonzero now employee ph eh dd) as Hdept.
  fold f in Hsal, Hdept.
  split; [exact Hsal |]. split; [exact Hdept |].
  unfold predictChurn. cbn [confidence]. fold f.
  set (s := calculateRiskScore f).
  pose proof (calculateConfidence_bounds f s) as [_ Hhi].
  assert (Hlo : 0.74 <= calculateConfidence f s).
  { unfold calculateConfidence.
    set (nz := fun v : R => if Req_dec_T v 0 then false else true).
    assert (Hcount : (2 <= length (filter nz (values f)))%nat).
    { change (values f)
        with ([tenure_months f; avg_performance_rating f;
               performance_trend f; avg_engagement_score f;
               engagement_trend f]
              ++ salary_percentile f
                 :: [manager_changes f]
                    ++ department_turnover_rate f
                       :: [promotion_gap_months f;
                           work_life_balance_score f])%list.
      apply filter_two_pass; unfold nz.
      - destruct (Req_dec_T (salary_percentile f) 0);
          [contradiction | reflexivity].
      - destruct (Req_dec_T (department_turnover_rate f) 0);
          [contradiction | reflexivity]. }
    apply le_INR in Hcount. change (INR 2) with 2 in Hcount.
    change (INR (length (keys f))) with (INR 10).
    replace (INR 10) with 10 by (simpl; lra).
    pose proof (Rabs_pos (s - 0.5)) as He.
    set (n := INR (length (filter nz (values f)))) in *.
    unfold Rmin. destruct (Rle_dec _ 0.95); lra. }
  assert (H : IZR 740 / 1000 <= calculateConfidence f s <= IZR 950 / 1000)
    by lra.
  apply round3_between in H. lra.
Qed.

(** ** Sequences of threshold updates *)

Lemma setRiskThreshold_step (t : number) (this : State) :
  getRiskThreshold (snd (setRiskThreshold t this))
  = if passes_guard t then t else getRiskThreshold this.
Proof.
  unfold setRiskThreshold, passes_guard, getRiskThreshold.
  destruct (num_lt t (Num 0) || num_gt t (Num 1))%bool; reflexivity.
Qed.

Lemma passes_guard_spec (t : number) :
  passes_guard t = true <-> t = NaN \/ within_unit t.
Proof.
  unfold passes_guard, within_unit, num_gt.
  destruct t as [x | | |]; cbn [num_lt orb negb].
  - destruct (Rlt_dec x 0) as [H0 | H0]; destruct (Rlt_dec 1 x) as [H1 | H1];
      cbn [orb negb];
      try (split;
           [discriminate
           | intros [Hn | (y & Hy & Hr)];
             [discriminate | injection Hy as <-; exfalso; lra]]).
    split; [| reflexivity].
    intros _. right. exists x. split; [reflexivity | lra].
  - split; [discriminate |].
    intros [Hn | (y & Hy & _)]; discriminate.
  - split; [discriminate |].
    intros [Hn | (y & Hy & _)]; discriminate.
  - split; [intros _; left; reflexivity | reflexivity].
Qed.

Lemma last_cons_default {A : Type} (l : list A) :
  forall a d : A, last (a :: l) d = last l a.
Proof.
  induction l as [| b l IH]; intros a d; [reflexivity |].
  change (last (a :: b :: l) d) with (last (b :: l) d).
  rewrite (IH b d), (IH b a). reflexivity.
Qed.

Lemma last_Forall {A : Type} (P : A -> Prop) (l : list A) (d : A) :
  Forall P l -> P d -> P (last l d).
Proof.
  intros Hall. revert d.
  induction Hall as [| a l Ha Hall IH]; intros d Hd; [exact Hd |].
  rewrite last_cons_default. apply IH. exact Ha.
Qed.

(** Whatever numbers [setRiskThreshold] is called with, one after the
    other, the threshold ends as the last number of the sequence that the
    guard lets through (as it was, when there is none), and the guard lets
    through the numbers of [0,1] and NaN.  So a threshold that starts in
    [0,1] stays there as long as NaN is not among the numbers passed, and
    turns NaN when the last call is made with NaN. *)
Theorem threshold_after_updates :
  forall (ts : list number) (this : State),
    getRiskThreshold (set_all ts this)
    = last (filter passes_guard ts) (getRiskThreshold this)
    /\ (forall t, passes_guard t = true <-> t = NaN \/ within_unit t)
    /\ (within_unit (getRiskThreshold this) -> ~ In NaN ts ->
        within_unit (getRiskThreshold (set_all ts this)))
    /\ getRiskThreshold (set_all (ts ++ [NaN]) this) = NaN.
Proof.
  assert (Hlast : forall ts this,
             getRiskThreshold (set_all ts this)
             = last (filter passes_guard ts) (getRiskThreshold this)).
  { induction ts as [| t ts IH]; intros this; [reflexivity |].
    unfold set_all. cbn [fold_left]. fold (set_all ts).
    rewrite IH, setRiskThreshold_step. cbn [filter].
    destruct (passes_guard t); [| reflexivity].
    symmetry. apply last_cons_default. }
  intros ts this. split; [apply Hlast |].
  split; [apply passes_guard_spec |].
  split.
  - intros H0 Hnan. rewrite Hlast.
    apply last_Forall; [| exact H0].
    apply Forall_forall. intros t Ht. apply filter_In in Ht.
    destruct Ht as [Hin Hg]. apply passes_guard_spec in Hg.
    destruct Hg as [-> | Hu]; [contradiction | exact Hu].
  - rewrite Hlast, filter_app. cbn [filter passes_guard num_lt num_gt orb negb].
    apply last_last.
Qed.

Lemma threshold_after_updates_witness :
  within_unit
    (getRiskThreshold (set_all [Num 0.3; Num 1.5; Num (-2)] initial)).
Proof.
  destruct (threshold_after_updates [Num 0.3; Num 1.5; Num (-2)] initial)
    as (_ & _ & H & _).
  apply H.
  - exists 0.5. split; [reflexivity | lra].
  - cbn [In]. intros [H1 | [H1 | [H1 | []]]]; discriminate.
Defined.

(** ** More on batch prediction *)

Lemma In_mapi_from {A B : Type} (g : A -> nat -> B) (l : list A) (y : B) :
  forall i,
    In y (mapi_from g i l) -> exists x k, In x l /\ y = g x k.
Proof.
  induction l as [| x l IH]; intros i; cbn [mapi_from In]; [tauto |].
  intros [<- | H].
  - exists x, i. split; [left; reflexivity | reflexivity].
  - destruct (IH _ H) as (x' & k & Hx & Hy).
    exists x', k. split; [right; exact Hx | exact Hy].
Qed.

Lemma mapi_from_ext {A B : Type} (g g' : A -> nat -> B) (l : list A) :
  (forall x k, In x l -> g x k = g' x k) ->
  forall i, mapi_from g i l = mapi_from g' i l.
Proof.
  induction l as [| x l IH]; intros H i; cbn [mapi_from]; [reflexivity |].
  rewrite (H x i) by (left; reflexivity).
  rewrite IH; [reflexivity |]. intros y k Hy. apply H. right. exact Hy.
Qed.

Lemma filter_filter_implied {A : Type} (p q : A -> bool) (l : list A) :
  (forall x, p x = true -> q x = true) ->
  filter p (filter q l) = filter p l.
Proof.
  intros H. induction l as [| x l IH]; cbn [filter]; [reflexivity |].
  destruct (q x) eqn:Eq; cbn [filter].
  - rewrite IH. reflexivity.
  - destruct (p x) eqn:Ep; [| exact IH].
    rewrite (H x Ep) in Eq. discriminate.
Qed.

(** Every prediction of a batch belongs to an employee of the batch and is
    made without a department context: it never lists "High department
    turnover", the default rate 0.15 being below the rule's 0.25. *)
Theorem batch_predictions_without_context :
  forall (clock : nat -> Z) (ids : nat -> string)
         (employees : list Employee)
         (performanceData : list PerformanceRecord)
         (engagementData : list EngagementRecord) (p : ChurnPrediction),
    In p (batchPredict clock ids employees performanceData engagementData) ->
    (exists e, In e employees /\ employee_id p = id e)
    /\ ~ In "High department turnover"%string (risk_factors p).
Proof.
  intros clock ids employees pd ed p Hin.
  rewrite batchPredict_sort in Hin.
  apply (Permutation_in p (Permutation_sym (sort_perm _ _))) in Hin.
  unfold predict_each in Hin. apply In_mapi_from in Hin.
  destruct Hin as (e & k & He & ->).
  split; [exists e; split; [exact He | reflexivity] |].
  unfold predictChurn. cbn [risk_factors].
  set (f := extractFeatures _ _ _ _ None).
  assert (Hr : In "High department turnover"%string
                 (identifyRiskFactors f e)
               <-> department_turnover_rate f > 0.25) by factor_iff.
  rewrite Hr. unfold f. rewrite departmentTurnoverRate_cases. lra.
Qed.

Lemma batch_predictions_without_context_witness :
  ~ In "High department turnover"%string
      (risk_factors (predictChurn 0 "id-0" steady_employee [] [] None)).
Proof.
  apply (batch_predictions_without_context (fun _ => 0%Z) (fun _ => "id-0"%string)
           [steady_employee] [] []).
  left. reflexivity.
Defined.

(** A batch uses, for each employee, only the records that carry that
    employee's identifier: dropping beforehand every record that belongs to
    nobody in the batch changes nothing. *)
Theorem batch_uses_own_records_only :
  forall (clock : nat -> Z) (ids : nat -> string)
         (employees : list Employee)
         (performanceData : list PerformanceRecord)
         (engagementData : list EngagementRecord),
    batchPredict clock ids employees
      (filter
         (fun p =>
            existsb (fun e => (perf_employee_id p =? id e)%string) employees)
         performanceData)
      (filter
         (fun r =>
            existsb (fun e => (eng_employee_id r =? id e)%string) employees)
         engagementData)
    = batchPredict clock ids employees performanceData engagementData.
Proof.
  intros clock ids employees pd ed.
  rewrite !batchPredict_sort. f_equal. unfold predict_each.
  apply mapi_from_ext. intros e k He.
  rewrite !filter_filter_implied; [reflexivity | |].
  - intros r Hr. apply existsb_exists. exists e. split; assumption.
  - intros r Hr. apply existsb_exists. exists e. split; assumption.
Qed.

(** ** Prioritizing interventions *)

Lemma urgent_spec (p : ChurnPrediction) :
  urgent p = true <-> risk_level p = HIGH \/ risk_level p = CRITICAL.
Proof.
  unfold urgent. destruct (risk_level p); cbn; intuition discriminate.
Qed.

Lemma filter_strongly_sorted {A : Type} (R : A -> A -> Prop)
    (p : A -> bool) (l : list A) :
  StronglySorted R l -> StronglySorted R (filter p l).
Proof.
  induction 1 as [| x l Hs IH Hall]; cbn [filter]; [constructor |].
  destruct (p x); [| exact IH].
  constructor; [exact IH |].
  rewrite Forall_forall in *. intros y Hy. apply filter_In in Hy.
  apply Hall. tauto.
Qed.

Lemma filter_all_pass {A : Type} (p : A -> bool) (l : list A) :
  (forall x, In x l -> p x = true) -> filter p l = l.
Proof.
  induction l as [| x l IH]; intros H; cbn [filter]; [reflexivity |].
  rewrite (H x) by (left; reflexivity).
  rewrite IH; [reflexivity |]. intros y Hy. apply H. right. exact Hy.
Qed.

Lemma sort_by_score_sorted_id (l : list ChurnPrediction) :
  StronglySorted (key_le (fun p => - risk_score p)) l ->
  JS.sort (fun a b => risk_score b - risk_score a) l = l.
Proof.
  intros H.
  apply (sort_sorted_id _ (fun p => - risk_score p) by_score_key).
  apply StronglySorted_Sorted. exact H.
Qed.

Lemma descending_key_le (l : list ChurnPrediction) :
  StronglySorted (key_le (fun p => - risk_score p)) l ->
  StronglySorted (fun a b => risk_score a >= risk_score b) l.
Proof.
  induction 1 as [| x l Hs IH Hall]; constructor; [exact IH |].
  rewrite Forall_forall in *. intros y Hy. specialize (Hall y Hy).
  unfold key_le in Hall. lra.
Qed.

(** [prioritizeInterventions] returns exactly the HIGH and CRITICAL
    predictions of its argument, in descending order of score, those of
    equal score in the order they had. *)
Theorem prioritizeInterventions_spec :
  forall predictions : list ChurnPrediction,
    let result := mlUtils.prioritizeInterventions predictions in
    (forall p,
        In p result
        <-> In p predictions
            /\ (risk_level p = HIGH \/ risk_level p = CRITICAL))
    /\ StronglySorted (fun a b => risk_score a >= risk_score b) result
    /\ (forall v : R,
          with_score v result = with_score v (filter urgent predictions)).
Proof.
  intros predictions result.
  assert (Hres : result
                 = JS.sort (fun a b => risk_score b - risk_score a)
                     (filter urgent predictions)) by reflexivity.
  split; [| split].
  - intros p. rewrite Hres. split.
    + intros H.
      apply (Permutation_in p (Permutation_sym (sort_perm _ _))) in H.
      apply filter_In in H. rewrite urgent_spec in H. exact H.
    + intros H. apply (Permutation_in p (sort_perm _ _)).
      apply filter_In. rewrite urgent_spec. exact H.
  - rewrite Hres. apply descending_key_le.
    apply (sort_strongly_sorted _ _ by_score_key).
  - intros v. rewrite Hres, !with_score_key.
    apply (sort_stable _ (fun p => - risk_score p) by_score_key).
Qed.

(** Prioritizing an already prioritized list changes nothing. *)
Theorem prioritizeInterventions_idempotent :
  forall predictions : list ChurnPrediction,
    mlUtils.prioritizeInterventions
      (mlUtils.prioritizeInterventions predictions)
    = mlUtils.prioritizeInterventions predictions.
Proof.
  intros predictions.
  set (r := mlUtils.prioritizeInterventions predictions).
  assert (Hs : StronglySorted (key_le (fun p => - risk_score p)) r)
    by apply (sort_strongly_sorted _ _ by_score_key).
  assert (Hall : forall p, In p r -> urgent p = true).
  { intros p H. unfold r, mlUtils.prioritizeInterventions in H.
    apply (Permutation_in p (Permutation_sym (sort_perm _ _))) in H.
    apply filter_In in H. tauto. }
  unfold mlUtils.prioritizeInterventions at 1.
  change (fun p : ChurnPrediction =>
            (level_eqb (risk_level p) HIGH
             || level_eqb (risk_level p) CRITICAL)%bool) with urgent.
  rewrite (filter_all_pass urgent r Hall).
  apply sort_by_score_sorted_id. exact Hs.
Qed.

(** On the output of [batchPredict] the sort inside
    [prioritizeInterventions] has nothing left to do: the result is the
    batch with the LOW and MEDIUM predictions struck out. *)
Theorem prioritize_batch :
  forall (clock : nat -> Z) (ids : nat -> string)
         (employees : list Employee)
         (performanceData : list PerformanceRecord)
         (engagementData : list EngagementRecord),
    mlUtils.prioritizeInterventions
      (batchPredict clock ids employees performanceData engagementData)
    = filter urgent
        (batchPredict clock ids employees performanceData engagementData).
Proof.
  intros clock ids employees pd ed.
  unfold mlUtils.prioritizeInterventions.
  change (fun p : ChurnPrediction =>
            (level_eqb (risk_level p) HIGH
             || level_eqb (risk_level p) CRITICAL)%bool) with urgent.
  apply sort_by_score_sorted_id, filter_strongly_sorted.
  rewrite batchPredict_sort.
  apply (sort_strongly_sorted _ _ by_score_key).
Qed.

Lemma round3_lower (lo : Z) (x : R) :
  IZR lo / 1000 <= x -> IZR lo / 1000 <= JS.Math_round (x * 1000) / 1000.
Proof.
  intros Hlo.
  assert (H1 : JS.Math_round (IZR lo) <= JS.Math_round (x * 1000))
    by (apply Math_round_mono; lra).
  rewrite Math_round_IZR in H1. lra.
Qed.

(** Among the predictions of a batch, every one whose returned score is
    above 0.6 is prioritized, and every prioritized one has a returned score
    of at least 0.6. *)
Theorem prioritized_scores :
  forall (clock : nat -> Z) (ids : nat -> string)
         (employees : list Employee)
         (performanceData : list PerformanceRecord)
         (engagementData : list EngagementRecord) (p : ChurnPrediction),
    let batch :=
      batchPredict clock ids employees performanceData engagementData in
    In p batch ->
    (0.6 < risk_score p -> In p (mlUtils.prioritizeInterventions batch))
    /\ (In p (mlUtils.prioritizeInterventions batch) -> 0.6 <= risk_score p).
Proof.
  intros clock ids employees pd ed p batch Hin.
  assert (Hp : exists now rid e ph eh,
             p = predictChurn now rid e ph eh None).
  { unfold batch in Hin. rewrite batchPredict_sort in Hin.
    apply (Permutation_in p (Permutation_sym (sort_perm _ _))) in Hin.
    unfold predict_each in Hin. apply In_mapi_from in Hin.
    destruct Hin as (e & k & _ & ->). do 5 eexists. reflexivity. }
  destruct Hp as (now & rid & e & ph & eh & Hp).
  set (raw := calculateRiskScore (extractFeatures now e ph eh None)).
  assert (Hlevel : risk_level p = categorizeRisk raw) by (rewrite Hp; reflexivity).
  assert (Hscore : risk_score p = JS.Math_round (raw * 1000) / 1000)
    by (rewrite Hp; reflexivity).
  assert (Hin' : forall q,
             In q (mlUtils.prioritizeInterventions batch)
             <-> In q batch /\ urgent q = true).
  { intros q. unfold mlUtils.prioritizeInterventions. split.
    - intros H.
      apply (Permutation_in q (Permutation_sym (sort_perm _ _))) in H.
      apply filter_In in H. exact H.
    - intros H. apply (Permutation_in q (sort_perm _ _)).
      apply filter_In. exact H. }
  pose proof (categorizeRisk_tiers raw) as (Hc & Hh & Hm & Hl).
  split.
  - intros Hgt. apply Hin'. split; [exact Hin |].
    apply urgent_spec. rewrite Hlevel.
    destruct (round3_rounded3 raw) as [[k Hk] Hnear].
    rewrite <- Hscore in Hk, Hnear. rewrite Hk in Hgt, Hnear.
    assert (Hk' : (600 < k)%Z) by (apply lt_IZR; lra).
    assert (Hk'' : IZR 601 <= IZR k) by (apply IZR_le; lia).
    destruct (Rle_dec 0.8 raw); [right; apply Hc; lra | left; apply Hh; lra].
  - intros H. apply Hin' in H. destruct H as [_ Hu].
    apply urgent_spec in Hu. rewrite Hlevel in Hu.
    assert (Hraw : IZR 600 / 1000 <= raw).
    { destruct (Rle_dec 0.6 raw) as [| Hn]; [lra |].
      exfalso. destruct (Rle_dec 0.3 raw).
      - rewrite Hm in Hu by lra. destruct Hu; discriminate.
      - rewrite Hl in Hu by lra. destruct Hu; discriminate. }
    rewrite Hscore. apply round3_lower in Hraw. lra.
Qed.

Lemma struggling_raw_score :
  0.62 <= calculateRiskScore
            (extractFeatures borderline_now struggling_employee
               [poor_review] [] None).
Proof.
  rewrite calculateRiskScore_spec.
  assert (Hx : spec_log_odds
                 (extractFeatures borderline_now struggling_employee
                    [poor_review] [] None)
               = 0.65 + 0.28 * tanh 1.5 - 0.24 * tanh 7).
  { unfold spec_log_odds, extractFeatures.
    cbn [tenure_months avg_performance_rating performance_trend
         avg_engagement_score engagement_trend salary_percentile
         manager_changes department_turnover_rate promotion_gap_months
         work_life_balance_score].
    change ((borderline_now - hire_date struggling_employee)
            / ms_per_month)%Z with 0%Z.
    cbn [length Nat.ltb Nat.leb map salary struggling_employee option_map
         JS.or_default].
    unfold calculateTrend. cbn [length Nat.ltb Nat.leb].
    unfold JS.reduce. cbn [JS.reduce_from rating poor_review INR].
    replace (Rmax 0 (0 - 24)) with 0
      by (unfold Rmax; destruct (Rle_dec 0 (0 - 24)); lra).
    replace (0 / 60) with 0 by lra. replace (0 / 36) with 0 by lra.
    replace (0.15 * 10) with 1.5 by lra. replace 7.0 with 7 by lra.
    rewrite tanh_0. lra. }
  rewrite Hx. unfold logistic.
  pose proof tanh_15_bounds as H15. pose proof tanh_7_bounds as H7.
  set (x := 0.65 + 0.28 * tanh 1.5 - 0.24 * tanh 7) in *.
  assert (Hxlo : 0.66 <= x) by (unfold x; lra).
  assert (HE : 1.66 <= exp x).
  { apply Rle_trans with (exp 0.66); [| apply exp_le_mono; exact Hxlo].
    pose proof (exp_ineq1_le 0.66). lra. }
  rewrite exp_Ropp.
  assert (HI : / exp x <= / 1.66) by (apply Rinv_le_contravar; lra).
  assert (HI' : / 1.66 <= 0.61).
  { replace (/ 1.66) with (1 / 1.66) by (field; lra). apply div_le; lra. }
  pose proof (Rinv_0_lt_compat (exp x) (exp_pos x)).
  apply le_div; lra.
Qed.

Lemma prioritized_scores_witness :
  In (predictChurn borderline_now "p3" struggling_employee [poor_review] []
        None)
     (mlUtils.prioritizeInterventions
        (batchPredict (fun _ => borderline_now) (fun _ => "p3"%string)
           [struggling_employee] [poor_review] [])).
Proof.
  apply (prioritized_scores (fun _ => borderline_now) (fun _ => "p3"%string)
           [struggling_employee] [poor_review] []).
  - left. reflexivity.
  - unfold predictChurn. cbn [risk_score].
    pose proof struggling_raw_score as H.
    assert (H' : IZR 620 / 1000
                 <= calculateRiskScore
                      (extractFeatures borderline_now struggling_employee
                         [poor_review] [] None)) by lra.
    apply round3_lower in H'. lra.
Defined.

(** ** Actionable insights *)

Lemma generateActionableInsights_map (p : ChurnPrediction) :
  mlUtils.generateActionableInsights p
  = map mlUtils.insight_for (risk_factors p).
Proof.
  unfold mlUtils.generateActionableInsights, JS.reduce.
  rewrite (reduce_from_push (fun factor (_ : nat) =>
                               mlUtils.insight_for factor)).
  cbn [app]. rewrite <- (map_id (mapi_from _ 0 (risk_factors p))).
  apply mapi_from_map. reflexivity.
Qed.

(** Every prediction gets at least one insight and at most ten, one for each
    of its risk factors. *)
Theorem insights_per_factor :
  forall (now : Z) (rid : string) (employee : Employee)
         (performanceHistory : list PerformanceRecord)
         (engagementHistory : list EngagementRecord)
         (departmentData : option DepartmentData),
    let p :=
      predictChurn now rid employee performanceHistory engagementHistory
        departmentData in
    length (mlUtils.generateActionableInsights p)
    = length (risk_factors p)
    /\ (1 <= length (mlUtils.generateActionableInsights p) <= 10)%nat.
Proof.
  intros now rid employee ph eh dd p.
  rewrite generateActionableInsights_map, length_map.
  split; [reflexivity |].
  unfold p, predictChurn. cbn [risk_factors].
  apply identifyRiskFactors_length.
Qed.

Ltac insight_from H :=
  let x := fresh "x" in
  let Hx := fresh "Hx" in
  let Hin := fresh "Hin" in
  apply in_map_iff in H; destruct H as (x & Hx & Hin);
  apply identifyRiskFactors_In in Hin; unfold rule_holds in Hin;
  repeat (destruct Hin as [Hin | Hin]);
  destruct Hin as [-> Hin];
  unfold mlUtils.insight_for in Hx; cbn in Hx;
  try discriminate Hx.

Ltac insight_to s :=
  apply in_map_iff; exists s; split;
  [ reflexivity
  | apply identifyRiskFactors_In; unfold rule_holds, Rgt; tauto ].

(** Which insights a prediction gets, in terms of the features it was made
    from: each of the four specific recommendations appears exactly when
    its rule holds, and the generic one exactly when a trend, department
    turnover, promotion gap or recent hire rule holds or no rule holds at
    all. *)
Theorem insight_iff_rule :
  forall (now : Z) (rid : string) (employee : Employee)
         (performanceHistory : list PerformanceRecord)
         (engagementHistory : list EngagementRecord)
         (departmentData : option DepartmentData),
    let f :=
      extractFeatures now employee performanceHistory engagementHistory
        departmentData in
    let insights :=
      mlUtils.generateActionableInsights
        (predictChurn now rid employee performanceHistory engagementHistory
           departmentData) in
    (In "Consider performance improvement plan and additional training"%string
        insights
     <-> avg_performance_rating f < 3.0)
    /\ (In "Schedule one-on-one meeting to discuss career goals and concerns"%string
           insights
        <-> avg_engagement_score f < 6.0)
    /\ (In "Explore flexible work arrangements or workload adjustment"%string
           insights
        <-> work_life_balance_score f < 6.0)
    /\ (In "Review compensation package and consider salary adjustment"%string
           insights
        <-> salary_percentile f < 0.3)
    /\ (In "Monitor closely and provide additional support"%string insights
        <-> performance_trend f < -0.3 \/ engagement_trend f < -0.3
            \/ department_turnover_rate f > 0.25
            \/ promotion_gap_months f > 36 \/ tenure_months f < 6
            \/ no_rule_fires f).
Proof.
  intros now rid employee ph eh dd f insights. subst insights.
  rewrite generateActionableInsights_map.
  unfold predictChurn. cbn [risk_factors]. fold f.
  assert (Hm : ~ manager_changes f > 2)
    by (change (manager_changes f) with 0; lra).
  repeat match goal with |- _ /\ _ => split end; split; intros H.
  - insight_from H; exact Hin.
  - insight_to "Below average performance rating"%string.
  - insight_from H; exact Hin.
  - insight_to "Low engagement score"%string.
  - insight_from H; exact Hin.
  - insight_to "Poor work-life balance"%string.
  - insight_from H; exact Hin.
  - insight_to "Below market salary"%string.
  - insight_from H; unfold Rgt in *; tauto.
  - destruct H as [H | [H | [H | [H | [H | H]]]]].
    + insight_to "Declining performance trend"%string.
    + insight_to "Declining engagement trend"%string.
    + insight_to "High department turnover"%string.
    + insight_to "Long time since last promotion"%string.
    + insight_to "Recent hire adjustment period"%string.
    + insight_to "Multiple minor risk indicators"%string.
Qed.

(** ** The query utilities *)

(** [queryUtils.categorizeRisk] names the tier the predictor's own
    [categorizeRisk] assigns, for every score. *)
Theorem queryUtils_categorizeRisk_agrees :
  forall riskScore : R,
    queryUtils.categorizeRisk riskScore
    = level_name (ChurnPredictor.categorizeRisk riskScore).
Proof.
  intros s. unfold queryUtils.categorizeRisk, ChurnPredictor.categorizeRisk.
  destruct (Rle_dec 0.8 s); [reflexivity |].
  destruct (Rle_dec 0.6 s); [reflexivity |].
  destruct (Rle_dec 0.3 s); reflexivity.
Qed.

Lemma own_assign (k k' : string) (v : queryUtils.Slot)
    (m : list (string * queryUtils.Slot)) :
  queryUtils.own k (queryUtils.assign k' v m)
  = if (k' =? k)%string then Some v else queryUtils.own k m.
Proof.
  induction m as [| [k0 w] m IH]; cbn [queryUtils.assign queryUtils.own].
  - destruct (k' =? k)%string; reflexivity.
  - destruct (k0 =? k')%string eqn:E0; cbn [queryUtils.own].
    + apply String.eqb_eq in E0. subst k0.
      destruct (k' =? k)%string; reflexivity.
    + rewrite IH. destruct (k0 =? k)%string eqn:E1; [| reflexivity].
      apply String.eqb_eq in E1. subst k0.
      rewrite String.eqb_sym, E0. reflexivity.
Qed.

Lemma own_write (k k' : string) (v : queryUtils.Slot)
    (m : list (string * queryUtils.Slot)) :
  queryUtils.own k (queryUtils.write k' v m)
  = if (k' =? "__proto__")%string then queryUtils.own k m
    else if (k' =? k)%string then Some v else queryUtils.own k m.
Proof.
  unfold queryUtils.write.
  destruct (k' =? "__proto__")%string; [reflexivity | apply own_assign].
Qed.

Lemma inherited_spec (key : string) :
  existsb (String.eqb key) queryUtils.inherited = true
  <-> In key queryUtils.inherited.
Proof.
  rewrite existsb_exists. split.
  - intros (k & Hk & He). apply String.eqb_eq in He. subst k. exact Hk.
  - intros H. exists key. split; [exact H | apply String.eqb_refl].
Qed.

Lemma Rsum_app (xs ys : list R) : Rsum (xs ++ ys) = Rsum xs + Rsum ys.
Proof.
  unfold Rsum. induction xs as [| x xs IH]; cbn [app fold_right]; [lra |].
  rewrite IH. lra.
Qed.

Lemma add_numbers_app (o : option R) (xs ys : list R) :
  add_numbers (add_numbers o xs) ys = add_numbers o (xs ++ ys).
Proof.
  destruct xs as [| x xs]; [reflexivity |].
  destruct ys as [| y ys]; [rewrite app_nil_r; reflexivity |].
  cbn [add_numbers app]. f_equal.
  change (x :: (xs ++ y :: ys)%list) with ((x :: xs) ++ y :: ys)%list.
  rewrite Rsum_app. ring.
Qed.

(** The inner loop, for a key that no object inherits: the numbers of the
    row under that key are added to the number the property holds. *)
Lemma metrics_of_row (key : string) (fields : list (string * Json)) :
  ~ In key queryUtils.inherited ->
  forall (i : nat) (metrics : list (string * queryUtils.Slot))
         (o : option R),
    queryUtils.own key metrics = option_map queryUtils.SNum o ->
    queryUtils.own key
      (JS.reduce_from
         (fun metrics (entry : string * Json) (_ : nat) =>
            let '(key, value) := entry in
            match value with
            | JNum x =>
                queryUtils.write key
                  (queryUtils.or_zero_plus (queryUtils.read key metrics) x)
                  metrics
            | _ => metrics
            end)
         i fields metrics)
    = option_map queryUtils.SNum (add_numbers o (numbers_at key fields)).
Proof.
  intros Hkey.
  assert (Hproto : (key =? "__proto__")%string = false).
  { destruct (key =? "__proto__")%string eqn:E; [| reflexivity].
    apply String.eqb_eq in E. exfalso. apply Hkey. rewrite E.
    unfold queryUtils.inherited. cbn [In]. tauto. }
  assert (Hnot : existsb (String.eqb key) queryUtils.inherited = false).
  { destruct (existsb (String.eqb key) queryUtils.inherited) eqn:E;
      [| reflexivity].
    apply inherited_spec in E. contradiction. }
  induction fields as [| [k value] fields IH]; intros i metrics o Hown;
    cbn [JS.reduce_from numbers_at]; [exact Hown |].
  destruct value as [x | s | items | obj];
    try (apply IH; exact Hown).
  destruct (k =? key)%string eqn:E.
  - apply String.eqb_eq in E. subst k.
    rewrite (IH _ _ (Some (match o with Some v => v | None => 0 end + x))).
    + f_equal.
      change (x :: numbers_at key fields)
        with ([x] ++ numbers_at key fields)%list.
      rewrite <- add_numbers_app. f_equal.
      cbn [add_numbers Rsum fold_right]. f_equal. ring.
    + rewrite own_write, Hproto, String.eqb_refl.
      unfold queryUtils.read. rewrite Hown, Hnot.
      destruct o as [v |]; cbn [option_map queryUtils.or_zero_plus].
      * destruct (Req_dec_T v 0) as [-> |]; reflexivity.
      * reflexivity.
  - apply IH. rewrite own_write, E.
    destruct (k =? "__proto__")%string; exact Hown.
Qed.

(** The inner loop, for an inherited key other than [__proto__]: the
    property ends up holding a string as soon as the row has a number under
    the key. *)
Lemma inherited_of_row (key : string) (fields : list (string * Json)) :
  In key queryUtils.inherited -> key <> "__proto__"%string ->
  forall (i : nat) (metrics : list (string * queryUtils.Slot)) (b : bool),
    queryUtils.own key metrics
    = (if b then Some queryUtils.SText else None) ->
    queryUtils.own key
      (JS.reduce_from
         (fun metrics (entry : string * Json) (_ : nat) =>
            let '(key, value) := entry in
            match value with
            | JNum x =>
                queryUtils.write key
                  (queryUtils.or_zero_plus (queryUtils.read key metrics) x)
                  metrics
            | _ => metrics
            end)
         i fields metrics)
    = (if (b || negb (Nat.eqb (length (numbers_at key fields)) 0))%bool
       then Some queryUtils.SText else None).
Proof.
  intros Hkey Hnp.
  assert (Hproto : (key =? "__proto__")%string = false)
    by (apply String.eqb_neq; exact Hnp).
  assert (Hin : existsb (String.eqb key) queryUtils.inherited = true)
    by (apply inherited_spec; exact Hkey).
  induction fields as [| [k value] fields IH]; intros i metrics b Hown;
    cbn [JS.reduce_from numbers_at].
  - cbn [length Nat.eqb negb]. rewrite Bool.orb_false_r. exact Hown.
  - destruct value as [x | s | items | obj];
      try (apply IH; exact Hown).
    destruct (k =? key)%string eqn:E.
    + apply String.eqb_eq in E. subst k.
      rewrite (IH _ _ true).
      * cbn [length Nat.eqb negb orb]. rewrite Bool.orb_true_r. reflexivity.
      * rewrite own_write, Hproto, String.eqb_refl.
        unfold queryUtils.read. rewrite Hown, Hin.
        destruct b; reflexivity.
    + apply IH. rewrite own_write, E.
      destruct (k =? "__proto__")%string; exact Hown.
Qed.

(** The inner loop never gives the object an own property [__proto__]. *)
Lemma proto_of_row (fields : list (string * Json)) :
  forall (i : nat) (metrics : list (string * queryUtils.Slot)),
    queryUtils.own "__proto__" metrics = None ->
    queryUtils.own "__proto__"
      (JS.reduce_from
         (fun metrics (entry : string * Json) (_ : nat) =>
            let '(key, value) := entry in
            match value with
            | JNum x =>
                queryUtils.write key
                  (queryUtils.or_zero_plus (queryUtils.read key metrics) x)
                  metrics
            | _ => metrics
            end)
         i fields metrics)
    = None.
Proof.
  induction fields as [| [k value] fields IH]; intros i metrics Hown;
    cbn [JS.reduce_from]; [exact Hown |].
  destruct value as [x | s | items | obj];
    try (apply IH; exact Hown).
  apply IH. rewrite own_write.
  destruct (k =? "__proto__")%string; exact Hown.
Qed.

Lemma flat_map_length_zero {A B : Type} (f : A -> list B) (a : A)
    (l : list A) :
  Nat.eqb (length (flat_map f (a :: l))) 0
  = (Nat.eqb (length (f a)) 0 && Nat.eqb (length (flat_map f l)) 0)%bool.
Proof.
  cbn [flat_map]. rewrite length_app.
  destruct (length (f a)); destruct (length (flat_map f l)); reflexivity.
Qed.

(** What [extractMetrics] leaves under a key.  For a key that objects do not
    inherit, the own property is the sum of the numbers that the rows hold
    under the key, and there is none when no row holds a number under it;
    fields that are not numbers contribute nothing.  For an inherited key
    (constructor, toString, ...) with a number in some row, the property
    holds a string, not a sum, and under [__proto__] nothing is stored. *)
Theorem extractMetrics_sums :
  forall (results : list Row) (key : string),
    (~ In key queryUtils.inherited ->
     queryUtils.own key (queryUtils.extractMetrics results)
     = match flat_map (numbers_at key) results with
       | [] => None
       | x :: xs => Some (queryUtils.SNum (Rsum (x :: xs)))
       end)
    /\ (In key queryUtils.inherited ->
        queryUtils.own key (queryUtils.extractMetrics results)
        = match flat_map (numbers_at key) results with
          | [] => None
          | _ :: _ =>
              if (key =? "__proto__")%string then None
              else Some queryUtils.SText
          end).
Proof.
  intros results key.
  unfold queryUtils.extractMetrics, JS.reduce.
  set (inner :=
         fun (metrics : list (string * queryUtils.Slot))
             (entry : string * Json) (_ : nat) =>
           let '(key, value) := entry in
           match value with
           | JNum x =>
               queryUtils.write key
                 (queryUtils.or_zero_plus (queryUtils.read key metrics) x)
                 metrics
           | _ => metrics
           end).
  split.
  - intros Hkey.
    assert (H : forall rows i metrics o,
               queryUtils.own key metrics = option_map queryUtils.SNum o ->
               queryUtils.own key
                 (JS.reduce_from
                    (fun metrics (row : Row) (_ : nat) =>
                       JS.reduce_from inner 0 row metrics)
                    i rows metrics)
               = option_map queryUtils.SNum
                   (add_numbers o (flat_map (numbers_at key) rows))).
    { induction rows as [| row rows IH]; intros i metrics o Hown;
        cbn [JS.reduce_from flat_map]; [exact Hown |].
      rewrite (IH _ _ (add_numbers o (numbers_at key row))).
      - rewrite add_numbers_app. reflexivity.
      - apply (metrics_of_row key row Hkey). exact Hown. }
    rewrite (H results 0%nat [] None) by reflexivity.
    destruct (flat_map (numbers_at key) results) as [| x xs];
      [reflexivity |].
    cbn [add_numbers option_map]. do 2 f_equal. ring.
  - intros Hkey.
    destruct (key =? "__proto__")%string eqn:Ep.
    + apply String.eqb_eq in Ep. subst key.
      assert (H : forall rows i metrics,
                 queryUtils.own "__proto__" metrics = None ->
                 queryUtils.own "__proto__"
                   (JS.reduce_from
                      (fun metrics (row : Row) (_ : nat) =>
                         JS.reduce_from inner 0 row metrics)
                      i rows metrics)
                 = None).
      { induction rows as [| row rows IH]; intros i metrics Hown;
          cbn [JS.reduce_from]; [exact Hown |].
        apply IH. apply proto_of_row. exact Hown. }
      rewrite (H results 0%nat []) by reflexivity.
      destruct (flat_map (numbers_at "__proto__") results); reflexivity.
    + apply String.eqb_neq in Ep.
      assert (H : forall (rows : list Row) (i : nat)
                         (metrics : list (string * queryUtils.Slot))
                         (b : bool),
                 queryUtils.own key metrics
                 = (if b then Some queryUtils.SText else None) ->
                 queryUtils.own key
                   (JS.reduce_from
                      (fun metrics (row : Row) (_ : nat) =>
                         JS.reduce_from inner 0 row metrics)
                      i rows metrics)
                 = (if (b || negb (Nat.eqb
                                     (length (flat_map (numbers_at key) rows))
                                     0))%bool
                    then Some queryUtils.SText else None)).
      { induction rows as [| row rows IH]; intros i metrics b Hown.
        - cbn [JS.reduce_from flat_map length Nat.eqb negb].
          rewrite Bool.orb_false_r. exact Hown.
        - cbn [JS.reduce_from].
          rewrite (IH _ _ (b || negb (Nat.eqb (length (numbers_at key row))
                                        0))%bool).
          + rewrite flat_map_length_zero.
            destruct b;
              destruct (Nat.eqb (length (numbers_at key row)) 0);
              destruct (Nat.eqb (length (flat_map (numbers_at key) rows)) 0);
              reflexivity.
          + apply (inherited_of_row key row Hkey Ep). exact Hown. }
      rewrite (H results 0%nat [] false) by reflexivity.
      destruct (flat_map (numbers_at key) results); reflexivity.
Qed.

Lemma extractMetrics_sums_witness :
  queryUtils.own "employee_count"
    (queryUtils.extractMetrics QueryEngine.engagement_rows)
  = Some (queryUtils.SNum (Rsum [15; 12; 20])).
Proof.
  apply (proj1 (extractMetrics_sums QueryEngine.engagement_rows
                  "employee_count")).
  unfold queryUtils.inherited. cbn [In].
  intros H. repeat (destruct H as [H | H]; [discriminate H |]). exact H.
Defined.

(** ** The query engine *)

Lemma toLowerCase_app (a b : string) :
  Str.toLowerCase (a ++ b) = (Str.toLowerCase a ++ Str.toLowerCase b)%string.
Proof.
  induction a as [| c a IH]; cbn [String.append Str.toLowerCase];
    [reflexivity |].
  rewrite IH. reflexivity.
Qed.

Lemma prefix_app (k b : string) : String.prefix k (k ++ b) = true.
Proof.
  induction k as [| c k IH]; cbn [String.append String.prefix];
    [destruct b; reflexivity |].
  destruct (Ascii.ascii_dec c c) as [_ | Hn]; [exact IH | contradiction].
Qed.

Lemma includes_prefix (s k : string) :
  String.prefix k s = true -> Str.includes s k = true.
Proof.
  intros H. destruct s; cbn [Str.includes]; rewrite H; reflexivity.
Qed.

Lemma includes_app_l (a s k : string) :
  Str.includes s k = true -> Str.includes (a ++ s) k = true.
Proof.
  intros H. induction a as [| c a IH]; cbn [String.append]; [exact H |].
  cbn [Str.includes]. rewrite IH.
  destruct (String.prefix k (String c (a ++ s))); reflexivity.
Qed.

Lemma includes_embedded (pre k post : string) :
  Str.includes (pre ++ k ++ post) k = true.
Proof. apply includes_app_l, includes_prefix, prefix_app. Qed.

(** A query that contains a forbidden keyword, in whatever mix of upper and
    lower case and wherever in the text, is rejected with the message for a
    forbidden operation, whatever its length. *)
Theorem validateQuery_rejects_keyword :
  forall (pre w post keyword : string),
    In keyword QueryEngine.forbiddenKeywords ->
    Str.toLowerCase w = keyword ->
    let v := QueryEngine.validateQuery (pre ++ w ++ post) in
    QueryEngine.valid v = false
    /\ exists k,
         In k QueryEngine.forbiddenKeywords
         /\ QueryEngine.error v
            = Some ("Query contains forbidden operation: " ++ k)%string.
Proof.
  intros pre w post keyword Hin Hw v. subst v.
  unfold QueryEngine.validateQuery. cbv zeta.
  rewrite !toLowerCase_app, Hw.
  destruct (find _ QueryEngine.forbiddenKeywords) as [k |] eqn:Ef.
  - apply find_some in Ef. cbn [QueryEngine.valid QueryEngine.error].
    split; [reflexivity |]. exists k. split; [tauto | reflexivity].
  - exfalso. apply (find_none _ _ Ef) in Hin. cbv beta in Hin.
    rewrite includes_embedded in Hin. discriminate.
Qed.

Lemma validateQuery_rejects_keyword_witness :
  QueryEngine.valid
    (QueryEngine.validateQuery "please DrOp the old entries"%string)
  = false.
Proof.
  apply (validateQuery_rejects_keyword "please "%string "DrOp"%string
           " the old entries"%string "drop"%string).
  - left. reflexivity.
  - reflexivity.
Defined.

(** The outcomes of [validateQuery].  A query is accepted exactly when its
    lower-case form includes none of the six keywords and it has at most
    500 characters; the complaint about length is made exactly when the
    query is longer and includes no keyword, so a keyword is reported even
    in a query that is also too long; an accepted query carries no error. *)
Theorem validateQuery_outcomes :
  forall query : string,
    let v := QueryEngine.validateQuery query in
    let clean :=
      forall k, In k QueryEngine.forbiddenKeywords ->
                Str.includes (Str.toLowerCase query) k = false in
    (QueryEngine.valid v = true
     <-> clean /\ (String.length query <= 500)%nat)
    /\ (QueryEngine.error v
        = Some "Query is too long. Please keep it under 500 characters."%string
        <-> clean /\ (500 < String.length query)%nat)
    /\ (QueryEngine.error v = None <-> QueryEngine.valid v = true).
Proof.
  intros query v clean. subst v clean.
  unfold QueryEngine.validateQuery. cbv zeta.
  destruct (find _ QueryEngine.forbiddenKeywords) as [k |] eqn:Ef.
  - apply find_some in Ef. destruct Ef as [Hk Hinc].
    cbn [QueryEngine.valid QueryEngine.error].
    assert (Hno : ~ (forall k0, In k0 QueryEngine.forbiddenKeywords ->
                       Str.includes (Str.toLowerCase query) k0 = false)).
    { intros H. rewrite (H k Hk) in Hinc. discriminate. }
    split; [split; [discriminate | intros [H _]; contradiction] |].
    split; [| split; discriminate].
    split; [| intros [H _]; contradiction].
    unfold QueryEngine.forbiddenKeywords in Hk. cbn [In] in Hk.
    intros Heq. exfalso.
    repeat (destruct Hk as [<- | Hk]; [discriminate Heq |]). exact Hk.
  - pose proof (find_none _ _ Ef) as Hclean. cbv beta in Hclean.
    destruct (Nat.ltb_spec 500 (String.length query)) as [Hlong | Hshort];
      cbn [QueryEngine.valid QueryEngine.error].
    + split; [split; [discriminate | intros [_ H]; lia] |].
      split; [split; [intros _; split; assumption | reflexivity] |].
      split; discriminate.
    + split; [split; [intros _; split; assumption | reflexivity] |].
      split; [split; [discriminate | intros [_ H]; lia] |].
      split; reflexivity.
Qed.

(** What [processQuery] hands back as results.  The results are chosen by
    keywords of the generated SQL, not of the question: a question about
    recent hires is answered with the department engagement rows, because
    its SQL names the engagement table; a question that matches nothing is
    answered with the head-count row, because the default SQL counts; and
    the default response of [getMockResults] is never returned. *)
Theorem mock_results_by_query :
  forall (stamp query : string),
    let q := Str.toLowerCase query in
    let results :=
      QueryEngine.getMockResults stamp (QueryEngine.generateMockSQL query) in
    results
    = (if (Str.includes q "high risk" || Str.includes q "churn")%bool
       then QueryEngine.churn_rows
       else if (Str.includes q "engagement"
                && Str.includes q "department")%bool
       then QueryEngine.engagement_rows
       else if (Str.includes q "performance"
                || Str.includes q "top performer")%bool
       then QueryEngine.performance_rows
       else if (Str.includes q "recent hire"
                || Str.includes q "6 months")%bool
       then QueryEngine.engagement_rows
       else QueryEngine.totals_rows)
    /\ results <> QueryEngine.default_rows stamp.
Proof.
  intros stamp query q results. subst results.
  unfold QueryEngine.generateMockSQL. cbv zeta. fold q.
  destruct (Str.includes q "high risk" || Str.includes q "churn")%bool;
    [split; [reflexivity | discriminate] |].
  destruct (Str.includes q "engagement"
            && Str.includes q "department")%bool;
    [split; [reflexivity | discriminate] |].
  destruct (Str.includes q "performance"
            || Str.includes q "top performer")%bool;
    [split; [reflexivity | discriminate] |].
  destruct (Str.includes q "recent hire" || Str.includes q "6 months")%bool;
    split; try reflexivity; discriminate.
Qed.

(** ** Zero and missing inputs *)

Lemma reduce_from_map {A A' B : Type} (f : B -> A' -> nat -> B)
    (g : A -> A') (l : list A) :
  forall (i : nat) (acc : B),
    JS.reduce_from f i (map g l) acc
    = JS.reduce_from (fun a x k => f a (g x) k) i l acc.
Proof.
  induction l as [| x l IH]; intros i acc; cbn [map JS.reduce_from];
    [reflexivity | apply IH].
Qed.

Lemma reduce_from_ext {A B : Type} (f f' : B -> A -> nat -> B)
    (l : list A) :
  (forall a x k, f a x k = f' a x k) ->
  forall (i : nat) (acc : B),
    JS.reduce_from f i l acc = JS.reduce_from f' i l acc.
Proof.
  intros H. induction l as [| x l IH]; intros i acc; cbn [JS.reduce_from];
    [reflexivity |].
  rewrite H. apply IH.
Qed.

Lemma or_default_forget_zero (o : option R) (d : R) :
  JS.or_default (forget_zero o) d = JS.or_default o d.
Proof.
  destruct o as [v |]; cbn [forget_zero JS.or_default]; [| reflexivity].
  destruct (Req_dec_T v 0) as [E | E]; cbn [JS.or_default];
    [reflexivity |].
  destruct (Req_dec_T v 0); [contradiction | reflexivity].
Qed.

Lemma extractFeatures_forget_zero (now : Z) (e : Employee)
    (ph : list PerformanceRecord) (eh : list EngagementRecord)
    (dd : option DepartmentData) :
  extractFeatures now (without_zero_salary e) ph
    (map without_zero_balance eh) dd
  = extractFeatures now e ph eh dd.
Proof.
  unfold extractFeatures. cbn [hire_date salary without_zero_salary].
  rewrite length_map, map_map. unfold JS.reduce.
  rewrite !reduce_from_map.
  cbn [overall_score survey_date work_life_balance without_zero_balance].
  rewrite (reduce_from_ext
             (fun a x (_ : nat) =>
                a + JS.or_default (forget_zero (work_life_balance x)) 7)
             (fun a x (_ : nat) =>
                a + JS.or_default (work_life_balance x) 7))
    by (intros; rewrite or_default_forget_zero; reflexivity).
  assert (Hs : match forget_zero (salary e) with
               | Some s => if Req_dec_T s 0 then 0.5 else Rmin (s / 120000) 1.0
               | None => 0.5
               end
               = match salary e with
                 | Some s =>
                     if Req_dec_T s 0 then 0.5 else Rmin (s / 120000) 1.0
                 | None => 0.5
                 end).
  { destruct (salary e) as [s |]; cbn [forget_zero]; [| reflexivity].
    destruct (Req_dec_T s 0) as [E | E]; [reflexivity |].
    destruct (Req_dec_T s 0); [contradiction | reflexivity]. }
  rewrite Hs. reflexivity.
Qed.

(** A salary of 0 and a work-life sub-score of 0 are read as missing: the
    prediction is the same as for the employee with no salary on record and
    for surveys with no such sub-score (which count 0.5 as salary percentile
    and 7 as sub-score). *)
Theorem zeros_read_as_missing :
  forall (now : Z) (rid : string) (employee : Employee)
         (performanceHistory : list PerformanceRecord)
         (engagementHistory : list EngagementRecord)
         (departmentData : option DepartmentData),
    predictChurn now rid (without_zero_salary employee) performanceHistory
      (map without_zero_balance engagementHistory) departmentData
    = predictChurn now rid employee performanceHistory engagementHistory
        departmentData.
Proof.
  intros now rid employee ph eh dd. unfold predictChurn.
  rewrite extractFeatures_forget_zero. reflexivity.
Qed.

(** The two factors driven by pay and by the department: "Below market
    salary" is listed exactly when a salary is on record, is not 0 and is
    below 36000, and "High department turnover" exactly when a department
    context is supplied whose turnover rate exceeds 0.25. *)
Theorem salary_and_turnover_factors :
  forall (now : Z) (rid : string) (employee : Employee)
         (performanceHistory : list PerformanceRecord)
         (engagementHistory : list EngagementRecord)
         (departmentData : option DepartmentData),
    let factors :=
      risk_factors
        (predictChurn now rid employee performanceHistory engagementHistory
           departmentData) in
    (In "Below market salary"%string factors
     <-> exists s, salary employee = Some s /\ s <> 0 /\ s < 36000)
    /\ (In "High department turnover"%string factors
        <-> exists d, departmentData = Some d /\ turnover_rate d > 0.25).
Proof.
  intros now rid employee ph eh dd factors. subst factors.
  unfold predictChurn. cbn [risk_factors].
  set (f := extractFeatures now employee ph eh dd).
  assert (Hs : In "Below market salary"%string
                 (identifyRiskFactors f employee)
               <-> salary_percentile f < 0.3) by factor_iff.
  assert (Hd : In "High department turnover"%string
                 (identifyRiskFactors f employee)
               <-> department_turnover_rate f > 0.25) by factor_iff.
  rewrite Hs, Hd. unfold f. rewrite departmentTurnoverRate_cases.
  unfold extractFeatures. cbn [salary_percentile].
  split.
  - destruct (salary employee) as [s |].
    + destruct (Req_dec_T s 0) as [E | E].
      * split; [lra | intros (s' & Heq & Hne & _); congruence].
      * unfold Rmin. destruct (Rle_dec (s / 120000) 1.0) as [Hle | Hgt].
        -- split.
           ++ intros H. exists s. repeat split; [exact E |].
              replace s with (s / 120000 * 120000) by (field; lra). lra.
           ++ intros (s' & Heq & _ & Hlt). injection Heq as <-.
              apply Rmult_lt_reg_r with 120000; [lra |].
              replace (s / 120000 * 120000) with s by (field; lra). lra.
        -- split; [lra |].
           intros (s' & Heq & _ & Hlt). injection Heq as <-.
           exfalso. apply Hgt.
           apply Rmult_le_reg_r with 120000; [lra |].
           replace (s / 120000 * 120000) with s by (field; lra). lra.
    + split; [lra | intros (s' & Heq & _); discriminate].
  - destruct dd as [d |].
    + destruct (Req_dec_T (turnover_rate d) 0) as [E | E].
      * split; [lra |].
        intros (d' & Heq & Hgt). injection Heq as <-. lra.
      * split; [intros H; exists d; split; [reflexivity | exact H] |].
        intros (d' & Heq & Hgt). injection Heq as <-. exact Hgt.
    + split; [lra | intros (d' & Heq & _); discriminate].
Qed.
